(** * Network stubbing: route registration ([cy.route2])

    A shallow embedding of
    [packages/driver/src/cy/net-stubbing/register-commands.ts]:
    the matcher annotator and validator, the handler classification
    performed by [addRoute], the route table and the [route:added] frame.

    JavaScript values are a first-order datatype, the lodash helpers the
    file calls are functions over it, and the stateful part ([_.uniqueId]'s
    counter, [state('routes')], [Cypress.log], [emitNetEvent]) is explicit
    state passing with an error result.

    The source file goes on with the script that moves the
    [node_modules] directories of the workspace packages into a cache
    and back and prints the cache key ([circleCache]); its path
    rewriting, its requests to the file system and its key follow the
    route registration here. *)

From Stdlib Require Import List String Ascii ZArith Bool Lia Permutation.
From Stdlib Require Import Numbers.DecimalString Numbers.DecimalNat.
Import ListNotations.

Set Warnings "-register-all".

Local Open Scope list_scope.
Local Open Scope string_scope.

(** ** JavaScript values *)

(** Numbers are integers here: the code only asks whether a value is a
    number, whether it is truthy and what its decimal rendering is.
    A regular expression is carried by its [toString()] rendering
    ([/source/flags]), a function by its source text.  Objects list their
    own enumerable properties in enumeration order; arrays are dense. *)
Inductive value : Type :=
| VUndefined
| VNull
| VBool (b : bool)
| VNum (n : Z)
| VStr (s : string)
| VRegExp (s : string)
| VFun (s : string)
| VArr (l : list value)
| VObj (l : list (string * value)).

Definition obj := list (string * value).

Module JS.

(** [ToBoolean]. *)
Definition truthy (v : value) : bool :=
  match v with
  | VUndefined | VNull => false
  | VBool b => b
  | VNum n => negb (n =? 0)%Z
  | VStr s => negb (s =? "")
  | VRegExp _ | VFun _ | VArr _ | VObj _ => true
  end.

Definition string_of_nat (n : nat) : string :=
  NilEmpty.string_of_uint (Nat.to_uint n).

Definition string_of_Z (n : Z) : string :=
  NilEmpty.string_of_int (Z.to_int n).

Fixpoint join (sep : string) (l : list string) : string :=
  match l with
  | [] => ""
  | [s] => s
  | s :: rest => s ++ sep ++ join sep rest
  end.

(** [value.toString()] / [String(value)] on a value whose [toString]
    is the built-in one: a number below 10^21 in size, an object
    without a [toString] member of its own ([undefined] and [null] are
    rendered as [String] does). *)
Fixpoint toString (v : value) : string :=
  match v with
  | VUndefined => "undefined"
  | VNull => "null"
  | VBool true => "true"
  | VBool false => "false"
  | VNum n => string_of_Z n
  | VStr s => s
  | VRegExp s => s
  | VFun s => s
  | VArr l =>
      join ","
        (map (fun e => match e with
                       | VUndefined | VNull => ""
                       | _ => toString e
                       end) l)
  | VObj _ => "[object Object]"
  end.

(** Canonical array index named by a property key, if any. *)
Fixpoint index_below (k : string) (n : nat) : option nat :=
  match n with
  | O => None
  | S m => if k =? string_of_nat m then Some m else index_below k m
  end.

Fixpoint lookup (k : string) (o : obj) : option value :=
  match o with
  | [] => None
  | (k', v) :: rest => if k =? k' then Some v else lookup k rest
  end.

Definition chars (s : string) : list value :=
  map (fun c => VStr (String c "")) (list_ascii_of_string s).

(** *** Members of the built-in prototypes

    A read [object[key]] with a computed key, as lodash's path functions
    perform it, also finds what the value inherits.  The methods of the
    built-in prototypes, as of ECMAScript 2019, are native functions,
    here by their [toString()] text, from which their own [name] is
    read; [__proto__] is read as an empty object.  (The accessors and
    the [lastIndex] of a regular expression, the [length], [arguments]
    and [caller] of a function and the [name] of a function that is not
    native are not represented.) *)

Definition native (name : string) : value :=
  VFun ("function " ++ name ++ "() { [native code] }").

Definition objectMembers : list string :=
  ["__defineGetter__"; "__defineSetter__"; "hasOwnProperty";
   "__lookupGetter__"; "__lookupSetter__"; "isPrototypeOf";
   "propertyIsEnumerable"; "toString"; "valueOf"; "toLocaleString"].

Definition stringMembers : list string :=
  ["anchor"; "big"; "blink"; "bold"; "charAt"; "charCodeAt";
   "codePointAt"; "concat"; "endsWith"; "fontcolor"; "fontsize"; "fixed";
   "includes"; "indexOf"; "italics"; "lastIndexOf"; "link";
   "localeCompare"; "match"; "matchAll"; "normalize"; "padEnd";
   "padStart"; "repeat"; "replace"; "search"; "slice"; "small"; "split";
   "strike"; "sub"; "substr"; "substring"; "sup"; "startsWith"; "trim";
   "trimStart"; "trimEnd"; "toLocaleLowerCase"; "toLocaleUpperCase";
   "toLowerCase"; "toUpperCase"].

Definition arrayMembers : list string :=
  ["concat"; "copyWithin"; "fill"; "find"; "findIndex"; "lastIndexOf";
   "pop"; "push"; "reverse"; "shift"; "unshift"; "slice"; "sort";
   "splice"; "includes"; "indexOf"; "join"; "keys"; "entries"; "values";
   "forEach"; "filter"; "flat"; "flatMap"; "map"; "every"; "some";
   "reduce"; "reduceRight"].

Definition numberMembers : list string :=
  ["toExponential"; "toFixed"; "toPrecision"].

Definition functionMembers : list string := ["apply"; "bind"; "call"].

Definition regexpMembers : list string := ["compile"; "exec"; "test"].

(** The members of a value's own kind, and the name of its
    constructor. *)
Definition kindMembers (v : value) : list string :=
  match v with
  | VStr _ => stringMembers
  | VArr _ => arrayMembers
  | VNum _ => numberMembers
  | VFun _ => functionMembers
  | VRegExp _ => regexpMembers
  | _ => []
  end.

Definition constructorName (v : value) : string :=
  match v with
  | VStr _ => "String"
  | VArr _ => "Array"
  | VNum _ => "Number"
  | VBool _ => "Boolean"
  | VFun _ => "Function"
  | VRegExp _ => "RegExp"
  | _ => "Object"
  end.

Definition constructorNames : list string :=
  ["Object"; "String"; "Array"; "Number"; "Boolean"; "Function"; "RegExp"].

(** The name of a native function, from its text. *)
Definition nativeName (s : string) : option string :=
  find (fun n => s =? "function " ++ n ++ "() { [native code] }")
       (constructorNames ++ objectMembers ++ stringMembers ++ arrayMembers
        ++ numberMembers ++ functionMembers ++ regexpMembers)%list.

(** Own property [k] of [v], as [hasOwnProperty] sees it: the
    properties of an object, the elements and the length of an array,
    the characters and the length of a string, the name of a native
    function. *)
Definition own (v : value) (k : string) : option value :=
  match v with
  | VObj o => lookup k o
  | VArr l =>
      if k =? "length" then Some (VNum (Z.of_nat (List.length l)))
      else match index_below k (List.length l) with
           | Some i => nth_error l i
           | None => None
           end
  | VStr s =>
      if k =? "length" then Some (VNum (Z.of_nat (String.length s)))
      else match index_below k (String.length s) with
           | Some i => nth_error (chars s) i
           | None => None
           end
  | VFun s =>
      if k =? "name" then option_map VStr (nativeName s) else None
  | _ => None
  end.

(** Property read [v.k] under a name that no built-in prototype
    defines, as every name is that this module reads directly: the own
    property, or [undefined]. *)
Definition prop (v : value) (k : string) : value :=
  match own v k with
  | Some x => x
  | None => VUndefined
  end.

Definition hasOwn (v : value) (k : string) : bool :=
  match own v k with
  | Some _ => true
  | None => false
  end.

(** What [v] inherits under the name [k]. *)
Definition inherited (v : value) (k : string) : option value :=
  match v with
  | VUndefined | VNull => None
  | _ =>
      if k =? "constructor" then Some (native (constructorName v))
      else if k =? "__proto__" then Some (VObj [])
      else if k =? "trimLeft" then
             match v with VStr _ => Some (native "trimStart") | _ => None end
      else if k =? "trimRight" then
             match v with VStr _ => Some (native "trimEnd") | _ => None end
      else if existsb (String.eqb k) (kindMembers v ++ objectMembers)%list
      then Some (native k)
      else None
  end.

(** The read [v[k]] with a computed key. *)
Definition member (v : value) (k : string) : value :=
  match own v k with
  | Some x => x
  | None => match inherited v k with
            | Some x => x
            | None => VUndefined
            end
  end.

(** [typeof v === 'object' || typeof v === 'function'], [v] not null. *)
Definition isObject (v : value) : bool :=
  match v with
  | VObj _ | VArr _ | VRegExp _ | VFun _ => true
  | _ => false
  end.

(** Assignment [o[k] = x] on an object's property list. *)
Fixpoint assign (o : obj) (k : string) (x : value) : obj :=
  match o with
  | [] => [(k, x)]
  | (k', v) :: rest =>
      if k =? k' then (k', x) :: rest else (k', v) :: assign rest k x
  end.

Fixpoint set_nth (l : list value) (i : nat) (x : value) : list value :=
  match i, l with
  | O, [] => [x]
  | O, _ :: rest => x :: rest
  | S j, [] => VUndefined :: set_nth [] j x
  | S j, v :: rest => v :: set_nth rest j x
  end.

(** *** [JSON.stringify] on data (no [toJSON] members, no cycles,
    numbers below 10^21 in size) *)

Definition hex_digit (n : nat) : ascii :=
  ascii_of_nat (if Nat.ltb n 10 then 48 + n else 87 + n).

Definition dquote : string := String (ascii_of_nat 34) "".
Definition backslash : string := String (ascii_of_nat 92) "".

Definition json_escape_char (c : ascii) : string :=
  let n := nat_of_ascii c in
  if Nat.eqb n 34 then backslash ++ dquote
  else if Nat.eqb n 92 then backslash ++ backslash
  else if Nat.eqb n 8 then backslash ++ "b"
  else if Nat.eqb n 12 then backslash ++ "f"
  else if Nat.eqb n 10 then backslash ++ "n"
  else if Nat.eqb n 13 then backslash ++ "r"
  else if Nat.eqb n 9 then backslash ++ "t"
  else if Nat.ltb n 32
       then backslash ++ "u00"
            ++ String (hex_digit (n / 16)) (String (hex_digit (n mod 16)) "")
       else String c "".

Fixpoint json_escape (s : string) : string :=
  match s with
  | EmptyString => ""
  | String c r => json_escape_char c ++ json_escape r
  end.

Definition json_quote (s : string) : string :=
  dquote ++ json_escape s ++ dquote.

Definition json_member (k s : string) : string :=
  json_quote k ++ ":" ++ s.

Definition json_array (items : list string) : string :=
  "[" ++ join "," items ++ "]".

Definition json_object (members : list string) : string :=
  "{" ++ join "," members ++ "}".

(** [None] stands for the result [undefined]. *)
Fixpoint stringify (v : value) : option string :=
  match v with
  | VUndefined | VFun _ => None
  | VNull => Some "null"
  | VBool true => Some "true"
  | VBool false => Some "false"
  | VNum n => Some (string_of_Z n)
  | VStr s => Some (json_quote s)
  | VRegExp _ => Some "{}"
  | VArr l =>
      Some (json_array
              (map (fun e => match stringify e with
                             | Some s => s
                             | None => "null"
                             end) l))
  | VObj o =>
      Some (json_object
              (flat_map (fun kv =>
                           match kv with
                           | (k, x) =>
                               match stringify x with
                               | Some s => [json_member k s]
                               | None => []
                               end
                           end) o))
  end.

Definition JSON_stringify (v : value) : value :=
  match stringify v with
  | Some s => VStr s
  | None => VUndefined
  end.

End JS.

(** ** The lodash helpers the module calls

    Property paths are strings; [castPath] turns one into a list of
    keys, reading dots and brackets as lodash's [stringToPath] does. *)
Module Lodash.

Definition isString (v : value) : bool :=
  match v with VStr _ => true | _ => false end.

Definition isNumber (v : value) : bool :=
  match v with VNum _ => true | _ => false end.

Definition isBoolean (v : value) : bool :=
  match v with VBool _ => true | _ => false end.

Definition isUndefined (v : value) : bool :=
  match v with VUndefined => true | _ => false end.

Definition isFunction (v : value) : bool :=
  match v with VFun _ => true | _ => false end.

(** [value != null && typeof value == 'object'] *)
Definition isObjectLike (v : value) : bool :=
  match v with VObj _ | VArr _ | VRegExp _ => true | _ => false end.

(** [isLength]: a non-negative safe integer. *)
Definition isLength (v : value) : bool :=
  match v with
  | VNum n => ((0 <=? n) && (n <=? 9007199254740991))%Z
  | _ => false
  end.

Definition isArrayLike (v : value) : bool :=
  match v with
  | VUndefined | VNull => false
  | _ => isLength (JS.prop v "length") && negb (isFunction v)
  end.

Definition isEmpty (v : value) : bool :=
  match v with
  | VUndefined | VNull => true
  | VStr s => s =? ""
  | VArr l => match l with [] => true | _ => false end
  | VObj o =>
      if isArrayLike v && isFunction (JS.prop v "splice")
      then negb (JS.truthy (JS.prop v "length"))
      else match o with [] => true | _ => false end
  | VBool _ | VNum _ | VRegExp _ | VFun _ => true
  end.

Definition keys (v : value) : list string :=
  match v with
  | VObj o => map fst o
  | VArr l => map JS.string_of_nat (seq 0 (List.length l))
  | VStr s => map JS.string_of_nat (seq 0 (String.length s))
  | _ => []
  end.

Definition mem (k : string) (l : list string) : bool :=
  existsb (String.eqb k) l.

(** [_.intersection(a, b)]: the distinct members of [a] found in [b],
    in the order of [a]. *)
Fixpoint intersection_from (seen a b : list string) : list string :=
  match a with
  | [] => []
  | k :: rest =>
      if mem k b && negb (mem k seen)
      then k :: intersection_from (k :: seen) rest b
      else intersection_from seen rest b
  end.

Definition intersection (a b : list string) : list string :=
  intersection_from [] a b.

Definition every (l : list value) (p : value -> bool) : bool :=
  forallb p l.

(** *** Paths *)

Definition is_word_char (c : ascii) : bool :=
  let n := nat_of_ascii c in
  ((48 <=? n) && (n <=? 57) || (65 <=? n) && (n <=? 90)
   || (97 <=? n) && (n <=? 122) || (n =? 95))%nat.

Fixpoint all_chars (p : ascii -> bool) (s : string) : bool :=
  match s with
  | EmptyString => true
  | String c r => p c && all_chars p r
  end.

Definition is_dot (c : ascii) : bool := Ascii.eqb c ".".

(** [reIsPlainProp = /^\w*$/] *)
Definition reIsPlainProp (s : string) : bool := all_chars is_word_char s.

Definition is_open (c : ascii) : bool := Ascii.eqb c "[".

Definition is_close (c : ascii) : bool := Ascii.eqb c "]".

Definition is_special (c : ascii) : bool :=
  is_dot c || is_open c || is_close c.

Definition is_digit (c : ascii) : bool :=
  let n := nat_of_ascii c in ((48 <=? n) && (n <=? 57))%nat.

Definition is_quote (c : ascii) : bool :=
  let n := nat_of_ascii c in ((n =? 34) || (n =? 39))%nat.

Definition is_backslash (c : ascii) : bool := (nat_of_ascii c =? 92)%nat.

Definition is_line_terminator (c : ascii) : bool :=
  let n := nat_of_ascii c in ((n =? 10) || (n =? 13))%nat.

(** The longest prefix of characters satisfying [p], and the rest. *)
Fixpoint span (p : ascii -> bool) (s : string) : string * string :=
  match s with
  | EmptyString => ("", "")
  | String c r =>
      if p c then let (run, rest) := span p r in (String c run, rest)
      else ("", s)
  end.

(** After an opening quote [q]: the body
    [(?:(?!q)[^\]|\.)*?] up to [q]], with the number of characters
    read, the closing [q]] included. *)
Fixpoint quoted (q : ascii) (s body : string) (n : nat)
  : option (string * nat) :=
  match s with
  | EmptyString => None
  | String c r =>
      if Ascii.eqb c q
      then match r with
           | String c' _ => if is_close c' then Some (body, n + 2) else None
           | EmptyString => None
           end
      else if is_backslash c
      then match r with
           | String c' r' =>
               if is_line_terminator c' then None
               else quoted q r' (body ++ String c (String c' "")) (n + 2)
           | EmptyString => None
           end
      else quoted q r (body ++ String c "") (n + 1)
  end.

(** [reEscapeChar]: a backslash goes, unless it follows a backslash. *)
Fixpoint unescape (s : string) : string :=
  match s with
  | EmptyString => ""
  | String c r =>
      if is_backslash c
      then match r with
           | String c' r' =>
               if is_backslash c' then String c' (unescape r')
               else unescape r
           | EmptyString => ""
           end
      else String c (unescape r)
  end.

(** After an opening bracket: [-?\d+(?:\.\d+)?\]]. *)
Definition bracket_number (s : string) : option (string * nat) :=
  let (sign, s1) :=
    match s with
    | String "-" r => ("-", r)
    | _ => ("", s)
    end in
  let (whole, s2) := span is_digit s1 in
  if whole =? "" then None
  else
    match s2 with
    | String "]" _ =>
        Some (sign ++ whole, String.length sign + String.length whole + 1)
    | String "." s3 =>
        let (fraction, s4) := span is_digit s3 in
        if fraction =? "" then None
        else match s4 with
             | String "]" _ =>
                 Some (sign ++ whole ++ "." ++ fraction,
                       String.length sign + String.length whole
                       + String.length fraction + 2)
             | _ => None
             end
    | _ => None
    end.

(** After an opening bracket: the key named by a number or by a quoted
    string, and the number of characters read, the closing bracket
    included (the second alternative of [rePropName]). *)
Definition bracket (s : string) : option (string * nat) :=
  match bracket_number s with
  | Some found => Some found
  | None =>
      match s with
      | String q r =>
          if is_quote q
          then match quoted q r "" 0 with
               | Some (body, n) => Some (unescape body, n + 1)
               | None => None
               end
          else None
      | EmptyString => None
      end
  end.

(** After an opening bracket: [[^[\]]*\]]. *)
Definition bracket_plain (s : string) : bool :=
  match snd (span (fun c => negb (is_open c || is_close c)) s) with
  | String c _ => is_close c
  | EmptyString => false
  end.

Definition bracket_quoted (s : string) : bool :=
  match s with
  | String q r =>
      is_quote q && match quoted q r "" 0 with
                    | Some _ => true
                    | None => false
                    end
  | EmptyString => false
  end.

(** [reIsDeepProp.test]: a dot somewhere, or a bracketed key. *)
Fixpoint reIsDeepProp (s : string) : bool :=
  match s with
  | EmptyString => false
  | String c r =>
      is_dot c
      || (is_open c && (bracket_plain r || bracket_quoted r))
      || reIsDeepProp r
  end.

Definition isKey (path : string) (object : value) : bool :=
  reIsPlainProp path || negb (reIsDeepProp path) || JS.hasOwn object path.

Definition follows_empty (s : string) : bool :=
  match s with
  | EmptyString => true
  | String c r =>
      is_dot c
      || (is_open c && match r with
                       | String c' _ => is_close c'
                       | EmptyString => false
                       end)
  end.

(** The third alternative of [rePropName], an empty key:
    [(?=(?:\.|\[\])(?:\.|\[\]|$))]. *)
Definition empty_key_at (s : string) : bool :=
  match s with
  | String c r =>
      if is_dot c then follows_empty r
      else if is_open c
      then match r with
           | String c' r' => is_close c' && follows_empty r'
           | EmptyString => false
           end
      else false
  | EmptyString => false
  end.

Definition flush (run : option string) : list string :=
  match run with
  | Some k => [k]
  | None => []
  end.

(** The matches of [rePropName] in [s], left to right: [run] is the key
    being read ([[^.[\]]+]), [skip] the number of characters still to
    pass over after a bracketed key. *)
Fixpoint propNames (run : option string) (skip : nat) (s : string)
  : list string :=
  match s with
  | EmptyString => flush run
  | String c r =>
      match skip with
      | S n => propNames None n r
      | O =>
          if negb (is_special c)
          then propNames
                 (Some (match run with
                        | Some k => k ++ String c ""
                        | None => String c ""
                        end)) 0 r
          else
            (flush run
               ++ (if is_open c
                   then match bracket r with
                        | Some (k, n) => k :: propNames None n r
                        | None =>
                            if empty_key_at s then "" :: propNames None 0 r
                            else propNames None 0 r
                        end
                   else if empty_key_at s then "" :: propNames None 0 r
                        else propNames None 0 r))%list
      end
  end.

(** [stringToPath]: an empty key first when the string opens with a
    dot, then the matches of [rePropName]. *)
Definition stringToPath (s : string) : list string :=
  ((match s with
    | String c _ => if is_dot c then [""] else []
    | EmptyString => []
    end) ++ propNames None 0 s)%list.

Definition castPath (path : string) (object : value) : list string :=
  if isKey path object then [path] else stringToPath path.

Fixpoint walk (object : value) (path : list string) : value :=
  match path with
  | [] => object
  | k :: rest =>
      match object with
      | VUndefined | VNull => VUndefined
      | _ => walk (JS.member object k) rest
      end
  end.

Definition baseGet (object : value) (path : string) : value :=
  match castPath path object with
  | [] => VUndefined
  | p => walk object p
  end.

(** [_.get(object, path)] *)
Definition get (object : value) (path : string) : value :=
  match object with
  | VUndefined | VNull => VUndefined
  | _ => baseGet object path
  end.

Fixpoint hasPath (object : value) (path : list string) : bool :=
  match path with
  | [] => false
  | [k] => JS.hasOwn object k
  | k :: rest => JS.hasOwn object k && hasPath (JS.member object k) rest
  end.

(** [_.has(object, path)] *)
Definition has (object : value) (path : string) : bool :=
  hasPath object (castPath path object).

(** [reIsUint] and the safe-integer bound of [isIndex]. *)
Definition isIndex (k : string) : bool :=
  match NilEmpty.uint_of_string k with
  | Some d =>
      (k =? NilEmpty.string_of_uint (N.to_uint (N.of_uint d)))
      && (N.of_uint d <? 9007199254740991)%N
  | None => false
  end.

Definition index_of (k : string) : nat :=
  match NilEmpty.uint_of_string k with
  | Some d => N.to_nat (N.of_uint d)
  | None => 0
  end.

(** [assignValue(object, key, x)].  A property stored on a function or
    a regular expression, or under a name on an array, is not kept. *)
Definition assignValue (object : value) (k : string) (x : value) : value :=
  match object with
  | VObj o => VObj (JS.assign o k x)
  | VArr l => if isIndex k then VArr (JS.set_nth l (index_of k) x) else VArr l
  | _ => object
  end.

Definition unsafe_key (k : string) : bool :=
  (k =? "__proto__") || (k =? "constructor") || (k =? "prototype").

Fixpoint setPath (nested : value) (path : list string) (x : value) : value :=
  match path with
  | [] => x
  | k :: rest =>
      if unsafe_key k then nested
      else
        let newValue :=
          match rest with
          | [] => x
          | next :: _ =>
              let objValue := JS.member nested k in
              if JS.isObject objValue then objValue
              else if isIndex next then VArr [] else VObj []
          end in
        assignValue nested k (setPath newValue rest x)
  end.

(** [_.set(object, path, x)] *)
Definition set (object : value) (path : string) (x : value) : value :=
  if JS.isObject object
  then match castPath path object with
       | [] => object
       | p => setPath object p x
       end
  else object.

Definition basePick (object : value) (paths : list string) : value :=
fold_left
  (fun result path =>
     if hasPath object (castPath path object)
     then match castPath path object with
          | [] => result
          | p => setPath result p (baseGet object path)
          end
     else result)
  paths (VObj []).

(** [_.pick(object, paths)] *)
Definition pick (object : value) (paths : list string) : value :=
match object with
| VUndefined | VNull => VObj []
| _ => basePick object paths
end.

(** [_.extend(object, source)] *)
Definition extend (object source : value) : value :=
  fold_left (fun o k => assignValue o k (JS.prop source k))
            (keys source) object.

End Lodash.

(** ** Results of calls that may throw *)

Inductive outcome (A : Type) : Type :=
| Returned (a : A)
| Thrown (message : string).
Arguments Returned {A} a.
Arguments Thrown {A} message.

(** The errors [$errUtils.throwErrByPath] raises from this module, by
    path under [net_stubbing]. *)
Inductive error : Type :=
| route2_needs_experimental
| invalid_route_matcher (err : string) (matcher : value)
| invalid_static_response (err : string) (staticResponse : value)
| invalid_handler (handler : value).

Inductive result (A : Type) : Type :=
| Ok (a : A)
| Err (e : error).
Arguments Ok {A} a.
Arguments Err {A} e.

(** ** Records of the route table *)

(** The object handed to [Cypress.log]; a field left unset is
    [VUndefined].  ([consoleProps] is a closure over the other fields and
    the arguments and is not represented.) *)
Record RouteLog : Type := mkRouteLog {
  log_name : string;
  log_instrument : string;
  log_isStubbed : bool;
  log_numResponses : Z;
  log_response : value;
  log_method : value;
  log_url : value;
  log_status : value;
  log_alias : value
}.

Record Route : Type := mkRoute {
  route_log : RouteLog;
  route_options : value;
  route_handler : value;
  route_hitCount : Z;
  route_requests : obj;
  route_alias : value
}.

(** [NetEventFrames.AddRoute] *)
Record AddRoute : Type := mkAddRoute {
  frame_handlerId : string;
  frame_routeMatcher : value;
  frame_staticResponse : option value
}.

(** What a call reads from its surroundings: the configuration flag, the
    clock ([Number(new Date())]) and [cy.getNextAlias()]. *)
Record Ambient : Type := mkAmbient {
  experimentalNetworkMocking : bool;
  clock : Z;
  nextAlias : value
}.

(** What a call can change: lodash's [idCounter], [state('routes')], the
    command log and the events sent to the backend. *)
Record State : Type := mkState {
  idCounter : nat;
  routes : list (string * Route);
  logs : list RouteLog;
  emitted : list (string * AddRoute)
}.

Fixpoint find_route (handlerId : string) (rs : list (string * Route))
  : option Route :=
  match rs with
  | [] => None
  | (k, r) :: rest =>
      if k =? handlerId then Some r else find_route handlerId rest
  end.

(** [state('routes')[handlerId] = route] *)
Fixpoint put_route (handlerId : string) (r : Route)
  (rs : list (string * Route)) : list (string * Route) :=
  match rs with
  | [] => [(handlerId, r)]
  | (k, r') :: rest =>
      if k =? handlerId then (k, r) :: rest
      else (k, r') :: put_route handlerId r rest
  end.

(** ** Collaborators outside the module *)

Module Collaborators.

(** Modelled from the spec: the table [STRING_MATCHER_FIELDS] of
    [@packages/net-stubbing/lib/types] is missing.  The data model
    names [method] and [url] as the fields holding a string or a
    pattern. *)
Definition STRING_MATCHER_FIELDS : list string := ["method"; "url"].

(** Modelled from the spec: the table [DICT_STRING_MATCHER_FIELDS] of
    [@packages/net-stubbing/lib/types] is missing.  The data model
    names [headers] and [query] as the mappings from a field name to a
    string or a pattern. *)
Definition DICT_STRING_MATCHER_FIELDS : list string := ["headers"; "query"].

(** Modelled from the spec: [validateStaticResponse] of
    [./static-response-utils] is missing.  The normalizer rejects a
    response that sets both [destroySocket] and a body or a status
    code. *)
Definition validateStaticResponse (staticResponse : value) : outcome unit :=
  if JS.truthy (JS.prop staticResponse "destroySocket")
     && (JS.hasOwn staticResponse "body"
         || JS.hasOwn staticResponse "statusCode")
  then Thrown "`destroySocket` excludes `body` and `statusCode`."
  else Returned tt.

(** Modelled from the spec: a default of the normalizer, applied where
    the field is absent. *)
Definition withDefault (r : value) (k : string) (d : value) : value :=
  if JS.hasOwn r k then r else Lodash.assignValue r k d.

(** Modelled from the spec: [getBackendStaticResponse] of
    [./static-response-utils] is missing.  The normalizer applies the
    defaults: status code 200, a placeholder body and an empty header
    mapping, each where the field is absent. *)
Definition getBackendStaticResponse (staticResponse : value) : value :=
  withDefault
    (withDefault
       (withDefault staticResponse "statusCode" (VNum 200))
       "body" (VStr "<empty body>"))
    "headers" (VObj []).

(** Modelled from the spec: the receiving side's rehydration of one
    tagged value is missing: a [regex] becomes the pattern with that
    string form, a [glob] the string itself. *)
Definition rehydrateValue (tagged : value) : value :=
  match JS.prop tagged "type", JS.prop tagged "value" with
  | VStr kind, VStr s => if kind =? "regex" then VRegExp s else VStr s
  | _, _ => tagged
  end.

(** Modelled from the spec: rehydration of the entries of a
    dictionary. *)
Definition rehydrateDict (v : value) : value :=
  match v with
  | VObj e => VObj (map (fun kv => (fst kv, rehydrateValue (snd kv))) e)
  | _ => v
  end.

(** Modelled from the spec: rehydration of one field of an annotated
    matcher, by the kind of the field. *)
Definition rehydrateEntry (kv : string * value) : string * value :=
  if Lodash.mem (fst kv) STRING_MATCHER_FIELDS
  then (fst kv, rehydrateValue (snd kv))
  else if Lodash.mem (fst kv) DICT_STRING_MATCHER_FIELDS
       then (fst kv, rehydrateDict (snd kv))
       else kv.

(** Modelled from the spec: the receiving side's rehydration of an
    annotated matcher is missing.  Every tagged value under a string
    matcher field, top-level or inside a dictionary, is replaced by the
    value it stands for; the other fields pass through unchanged. *)
Definition rehydrate (annotated : value) : value :=
  match annotated with
  | VObj a => VObj (map rehydrateEntry a)
  | _ => annotated
  end.

End Collaborators.

(** ** register-commands.ts *)

Definition STATIC_RESPONSE_KEYS : list string :=
  ["body"; "fixture"; "statusCode"; "headers"; "destroySocket"].

Definition isHttpRequestInterceptor (v : value) : bool :=
  Lodash.isFunction v.

(** [obj && (obj instanceof RegExp || ...)], read as a condition. *)
Definition isRegExp (v : value) : bool :=
  JS.truthy v && match v with VRegExp _ => true | _ => false end.

Definition isStringMatcher (v : value) : bool :=
  isRegExp v || Lodash.isString v.

Definition isNumberMatcher (v : value) : bool :=
  match v with
  | VArr l => Lodash.every l Lodash.isNumber
  | _ => Lodash.isNumber v
  end.

Definition uniqueId (st : State) : string * State :=
  let id := S (idCounter st) in
  (JS.string_of_nat id,
   mkState id (routes st) (logs st) (emitted st)).

Definition getUniqueId (now : Z) (st : State) : string * State :=
  let (n, st') := uniqueId st in
  (JS.string_of_Z now ++ "-" ++ n, st').

(** The object literal of [addRoute]'s JSON branch:
    [{ body: JSON.stringify(handler),
       headers: { 'content-type': 'application/json' } }]. *)
Definition jsonResponse (handler : value) : value :=
  VObj [("body", JS.JSON_stringify handler);
        ("headers", VObj [("content-type", VStr "application/json")])].

Section RegisterCommands.

(** Imported from [@packages/net-stubbing/lib/types] and
    [./static-response-utils], neither of which is part of this
    module: the two field tables, the static response validator (which
    returns or throws) and the conversion to the backend's form. *)
Variable STRING_MATCHER_FIELDS : list string.
Variable DICT_STRING_MATCHER_FIELDS : list string.
Variable validateStaticResponse : value -> outcome unit.
Variable getBackendStaticResponse : value -> value.

Definition getAllStringMatcherFields (options : value) : list string :=
  (STRING_MATCHER_FIELDS
     ++ List.concat
          (map (fun field =>
                  let v := JS.prop options field in
                  if JS.truthy v
                  then map (fun key => field ++ "." ++ key)%string
                           (Lodash.keys v)
                  else [])
               DICT_STRING_MATCHER_FIELDS))%list.

Definition annotation (v : value) : value :=
  VObj [("type", VStr (if isRegExp v then "regex" else "glob"));
        ("value", VStr (JS.toString v))].

Definition annotateField (options ret : value) (field : string) : value :=
  let v := Lodash.get options field in
  if JS.truthy v then Lodash.set ret field (annotation v) else ret.

Definition noAnnotationRequiredFields : list string :=
  ["https"; "port"; "webSocket"].

Definition annotateMatcherOptionsTypes (options : value) : value :=
  let ret :=
    fold_left (annotateField options)
              (getAllStringMatcherFields options) (VObj []) in
  Lodash.extend ret (Lodash.pick options noAnnotationRequiredFields).

Definition invalidStringMatcher (routeMatcher : value) (path : string)
  : bool :=
  Lodash.has routeMatcher path
  && negb (isStringMatcher (Lodash.get routeMatcher path)).

Definition validateRouteMatcherOptions (routeMatcher : value)
  : outcome unit :=
  if Lodash.isEmpty routeMatcher
  then Thrown ("The RouteMatcher does not contain any keys. "
               ++ "You must pass something to match on.")
  else
    match find (invalidStringMatcher routeMatcher)
               (getAllStringMatcherFields routeMatcher) with
    | Some path =>
        Thrown ("`" ++ path ++ "` must be a string or a regular expression.")
    | None =>
        if Lodash.has routeMatcher "https"
           && negb (Lodash.isBoolean (JS.prop routeMatcher "https"))
        then Thrown "`https` must be a boolean."
        else if Lodash.has routeMatcher "port"
                && negb (isNumberMatcher (JS.prop routeMatcher "port"))
        then Thrown "`port` must be a number or a list of numbers."
        else Returned tt
    end.

Definition logField (matcher : value) (k : string) : value :=
  if JS.truthy (JS.prop matcher k)
  then VStr (JS.toString (JS.prop matcher k))
  else VStr "*".

Definition getNewRouteLog (matcher : value) (isStubbed : bool)
  (alias : value) (staticResponse : option value) : RouteLog :=
  let response0 :=
    match staticResponse with
    | Some sr =>
        if JS.truthy (JS.prop sr "body") then JS.prop sr "body"
        else VStr "< empty body >"
    | None =>
        if isStubbed then VStr "< callback function >"
        else VStr "< passthrough >"
    end in
  let status :=
    match staticResponse with
    | Some sr =>
        if JS.truthy (JS.prop sr "statusCode") then JS.prop sr "statusCode"
        else VNum 200
    | None => VUndefined
    end in
  let response1 :=
    match staticResponse with
    | Some sr =>
        if JS.truthy (JS.prop sr "body") then JS.prop sr "body"
        else VStr "<empty body>"
    | None => response0
    end in
  let response2 :=
    if negb (JS.truthy response1)
    then (if isStubbed then VStr "<callback function"
          else VStr "<passthrough>")
    else response1 in
  mkRouteLog "route" "route" isStubbed 0 response2
    (logField matcher "method") (logField matcher "url") status
    (if JS.truthy alias then alias else VUndefined).

(** The [switch (true)] of [addRoute]: the handler as it is stored
    afterwards and the static response, if any. *)
Definition resolveHandler (handler : value)
  : result (value * option value) :=
  if isHttpRequestInterceptor handler then Ok (handler, None)
  else if Lodash.isUndefined handler then Ok (handler, None)
  else if Lodash.isString handler
  then Ok (handler, Some (VObj [("body", handler)]))
  else if Lodash.isObjectLike handler
  then
    let handler' :=
      if Nat.eqb
           (List.length
              (Lodash.intersection (Lodash.keys handler)
                                   STATIC_RESPONSE_KEYS)) 0
         && negb (Lodash.isEmpty handler)
      then jsonResponse handler
      else handler in
    match validateStaticResponse handler' with
    | Thrown err => Err (invalid_static_response err handler')
    | Returned _ => Ok (handler', Some handler')
    end
  else Err (invalid_handler handler).

Definition addRoute (env : Ambient) (matcher handler : value) (st : State)
  : result unit * State :=
  let (handlerId, st1) := getUniqueId (clock env) st in
  let alias := nextAlias env in
  let routeMatcher := annotateMatcherOptionsTypes matcher in
  match resolveHandler handler with
  | Err e => (Err e, st1)
  | Ok (handler', staticResponse) =>
      let frame :=
        mkAddRoute handlerId routeMatcher
          (option_map getBackendStaticResponse staticResponse) in
      let log :=
        getNewRouteLog matcher (JS.truthy handler') alias staticResponse in
      let route :=
        mkRoute log matcher handler' 0 []
                (if JS.truthy alias then alias else VUndefined) in
      (Ok tt,
       mkState (idCounter st1)
               (put_route handlerId route (routes st1))
               (logs st1 ++ [log])%list
               (emitted st1 ++ [("route:added", frame)])%list)
  end.

Definition getMatcherOptions (matcher handler arg2 : value)
  : value * value :=
  if Lodash.isString matcher && isStringMatcher handler && JS.truthy arg2
  then (VObj [("method", matcher); ("url", handler)], arg2)
  else if isStringMatcher matcher
  then (VObj [("url", matcher)], handler)
  else (matcher, handler).

Definition route2 (env : Ambient) (matcher handler arg2 : value)
  (st : State) : result unit * State :=
  if negb (experimentalNetworkMocking env)
  then (Err route2_needs_experimental, st)
  else
    let (routeMatcherOptions, handler') :=
      getMatcherOptions matcher handler arg2 in
    match validateRouteMatcherOptions routeMatcherOptions with
    | Thrown err =>
        (Err (invalid_route_matcher err routeMatcherOptions), st)
    | Returned _ => addRoute env routeMatcherOptions handler' st
    end.

End RegisterCommands.

(** ** The module with the collaborators above *)

Definition annotate : value -> value :=
  annotateMatcherOptionsTypes Collaborators.STRING_MATCHER_FIELDS
                              Collaborators.DICT_STRING_MATCHER_FIELDS.

Definition validateMatcher : value -> outcome unit :=
  validateRouteMatcherOptions Collaborators.STRING_MATCHER_FIELDS
                              Collaborators.DICT_STRING_MATCHER_FIELDS.

Definition register
  : Ambient -> value -> value -> value -> State -> result unit * State :=
  route2 Collaborators.STRING_MATCHER_FIELDS
         Collaborators.DICT_STRING_MATCHER_FIELDS
         Collaborators.validateStaticResponse
         Collaborators.getBackendStaticResponse.

Definition fresh : State := mkState 0 [] [] [].

Definition enabled (now : Z) : Ambient := mkAmbient true now VUndefined.

(** ** Vocabulary of the statements *)

Definition urlMatcher (u : value) : value := VObj [("url", u)].

Definition methodUrlMatcher (m u : value) : value :=
  VObj [("method", m); ("url", u)].


(** What [addRoute] does with a static response [sr] it has settled on:
    validate it, then register it. *)
Definition validated (validate : value -> outcome unit) (sr : value)
  : result (value * option value) :=
  match validate sr with
  | Thrown err => Err (invalid_static_response err sr)
  | Returned _ => Ok (sr, Some sr)
  end.

(** *** The ways a registration can end *)

(** The state after [getUniqueId] alone. *)
Definition bumped (st : State) : State :=
  mkState (S (idCounter st)) (routes st) (logs st) (emitted st).

Section Endings.

Variable fields dicts : list string.
Variable validate : value -> outcome unit.
Variable backend : value -> value.

(** The four ways a call of [route2] can end. *)
Inductive ending (env : Ambient) (matcher handler arg2 : value)
  (st : State) : result unit -> State -> Prop :=
| ends_at_gate :
    experimentalNetworkMocking env = false ->
    ending env matcher handler arg2 st (Err route2_needs_experimental) st
| ends_at_matcher err :
    experimentalNetworkMocking env = true ->
    validateRouteMatcherOptions fields dicts
      (fst (getMatcherOptions matcher handler arg2))
    = Thrown err ->
    ending env matcher handler arg2 st
      (Err (invalid_route_matcher err
              (fst (getMatcherOptions matcher handler arg2)))) st
| ends_at_handler e :
    experimentalNetworkMocking env = true ->
    validateRouteMatcherOptions fields dicts
      (fst (getMatcherOptions matcher handler arg2))
    = Returned tt ->
    resolveHandler validate (snd (getMatcherOptions matcher handler arg2))
    = Err e ->
    ending env matcher handler arg2 st (Err e) (bumped st)
| ends_registered h sr st' :
    experimentalNetworkMocking env = true ->
    validateRouteMatcherOptions fields dicts
      (fst (getMatcherOptions matcher handler arg2))
    = Returned tt ->
    resolveHandler validate (snd (getMatcherOptions matcher handler arg2))
    = Ok (h, sr) ->
    addRoute fields dicts validate backend env
      (fst (getMatcherOptions matcher handler arg2))
      (snd (getMatcherOptions matcher handler arg2)) st
    = (Ok tt, st') ->
    ending env matcher handler arg2 st (Ok tt) st'.

End Endings.

(** *** Handler identifiers and processes *)

Definition no_dash (s : string) : bool :=
  Lodash.all_chars (fun c => negb (Ascii.eqb c "-")) s.

(** The identifier built from a clock reading and a counter value. *)
Definition handlerIdOf (now : Z) (c : nat) : string :=
  JS.string_of_Z now ++ "-" ++ JS.string_of_nat c.

(** What happens in a process: a registration, or another caller of
    [_.uniqueId]. *)
Inductive action : Type :=
| Register (env : Ambient) (matcher handler arg2 : value)
| OtherUniqueId.

Definition emittedIds (st : State) : list string :=
  map (fun e => frame_handlerId (snd e)) (emitted st).

Section Processes.

Variable fields dicts : list string.
Variable validate : value -> outcome unit.
Variable backend : value -> value.

Definition step (st : State) (a : action) : State :=
  match a with
  | Register env matcher handler arg2 =>
      snd (route2 fields dicts validate backend env matcher handler arg2 st)
  | OtherUniqueId => snd (uniqueId st)
  end.

Definition run (actions : list action) (st : State) : State :=
  fold_left step actions st.

End Processes.

(** Identifiers sent so far are pairwise distinct and were built from
    counter values the counter has reached. *)
Definition numbered (st : State) : Prop :=
  NoDup (emittedIds st)
  /\ Forall (fun id => exists now c,
                 id = handlerIdOf now c /\ c <= idCounter st)
            (emittedIds st).

(** *** Paths, places and plain matchers *)

Definition dotfree (s : string) : bool :=
  Lodash.all_chars (fun c => negb (Lodash.is_dot c)) s.

Definition bracketfree (s : string) : bool :=
  Lodash.all_chars (fun c => negb (Lodash.is_open c || Lodash.is_close c)) s.

(** No dot and no bracket: a key that is one key to [stringToPath]. *)
Definition pathfree (s : string) : bool :=
  Lodash.all_chars (fun c => negb (Lodash.is_special c)) s.

(** The pieces of a string between its dots. *)
Fixpoint split_dot (s : string) : list string :=
  match s with
  | EmptyString => [""]
  | String c r =>
      if Lodash.is_dot c then "" :: split_dot r
      else match split_dot r with
           | h :: t => String c h :: t
           | [] => [String c ""]
           end
  end.

Definition dotfree_keys (o : obj) : Prop :=
  Forall (fun kv => dotfree (fst kv) = true) o.

(** A string matcher field is a top-level field or an entry of one of
    the dictionaries. *)
Inductive place : Type :=
| Top (f : string)
| Nested (d k : string).

Definition path_of (l : place) : string :=
  match l with
  | Top f => f
  | Nested d k => d ++ "." ++ k
  end.

Definition read (v : value) (l : place) : value :=
  match l with
  | Top f => JS.prop v f
  | Nested d k => JS.prop (JS.prop v d) k
  end.

Definition recognized (l : place) : Prop :=
  match l with
  | Top f => In f Collaborators.STRING_MATCHER_FIELDS
  | Nested d _ => In d Collaborators.DICT_STRING_MATCHER_FIELDS
  end.

(** What [v] holds at a place as its own: nothing, or a value. *)
Definition held (v : value) (l : place) : option value :=
  match l with
  | Top f => JS.own v f
  | Nested d k => JS.own (JS.prop v d) k
  end.

(** The entries under the dictionary name [d] of [r], if [r] has an
    object there. *)
Definition child (r : obj) (d : string) : obj :=
  match JS.lookup d r with
  | Some (VObj e) => e
  | _ => []
  end.

(** A key that [_.set] takes as the name of one property: no dot, no
    bracket, not an array index, none of the names [_.set] refuses. *)
Definition plainKey (k : string) : Prop :=
  pathfree k = true /\ Lodash.isIndex k = false
  /\ Lodash.unsafe_key k = false.

Definition plainPlace (l : place) : Prop :=
  match l with
  | Top _ => True
  | Nested _ k => plainKey k
  end.

Definition places (options : value) : list place :=
  (map Top Collaborators.STRING_MATCHER_FIELDS
     ++ List.concat
          (map (fun d =>
                  if JS.truthy (JS.prop options d)
                  then map (Nested d) (Lodash.keys (JS.prop options d))
                  else [])
               Collaborators.DICT_STRING_MATCHER_FIELDS))%list.

(** The annotated matcher under construction: no dotted key, and under
    a dictionary name nothing or an object. *)
Definition shaped (r : obj) : Prop :=
  dotfree_keys r
  /\ forall d, In d Collaborators.DICT_STRING_MATCHER_FIELDS ->
               JS.lookup d r = None \/ exists e, JS.lookup d r = Some (VObj e).

Definition tableName (g : string) : Prop :=
  In g Collaborators.STRING_MATCHER_FIELDS
  \/ In g Collaborators.DICT_STRING_MATCHER_FIELDS.

(** A matcher object none of whose keys has a dot, and whose
    dictionaries, where they are truthy, are objects with plain keys
    (no dot, no bracket, not an array index, none of the names [_.set]
    refuses). *)
Definition plainMatcher (o : obj) : Prop :=
  dotfree_keys o
  /\ forall d v,
       In d Collaborators.DICT_STRING_MATCHER_FIELDS ->
       JS.lookup d o = Some v -> JS.truthy v = true ->
       exists e, v = VObj e /\ Forall (fun kv => plainKey (fst kv)) e.

(** What the validator is to reject, in the words of its contract. *)
Inductive malformed (o : obj) : Prop :=
| malformed_empty :
    Lodash.isEmpty (VObj o) = true -> malformed o
| malformed_field f v :
    In f Collaborators.STRING_MATCHER_FIELDS ->
    JS.lookup f o = Some v -> isStringMatcher v = false -> malformed o
| malformed_entry d e k v :
    In d Collaborators.DICT_STRING_MATCHER_FIELDS ->
    JS.lookup d o = Some (VObj e) ->
    JS.lookup k e = Some v -> isStringMatcher v = false -> malformed o
| malformed_https v :
    JS.lookup "https" o = Some v -> Lodash.isBoolean v = false ->
    malformed o
| malformed_port v :
    JS.lookup "port" o = Some v -> isNumberMatcher v = false ->
    malformed o.

(** A key [k1.k2] of the dictionary [e], without brackets, whose part
    before the first dot names nothing in [e]: it is not a key of [e]
    and not a member that [e] inherits. *)
Definition dottedKey (e : obj) (k : string) : Prop :=
  bracketfree k = true
  /\ exists k1 k2,
       k = k1 ++ "." ++ k2 /\ dotfree k1 = true
       /\ JS.lookup k1 e = None /\ JS.inherited (VObj e) k1 = None.

(** *** Inputs of the examples *)

Definition users : obj := [("id", VNum 1); ("name", VStr "foo")].

Definition usersMatcher : obj :=
  [("method", VStr "GET");
   ("url", VRegExp "/\/users/");
   ("headers", VObj [("accept", VStr "application/json")]);
   ("port", VArr [VNum 80; VNum 443])].

Definition dottedHeader : value :=
  VObj [("headers", VObj [("a.b", VNum 5)])].

Definition emptyUrl : value := VObj [("url", VStr ""); ("https", VBool true)].


Definition dottedQuery : value :=
  VObj [("query", VObj [("user.name", VStr "bob")])].

Definition bracketedQuery : value :=
  VObj [("query", VObj [("filter[name]", VStr "bob")])].

(** *** The route table and the frames *)

(** What [addRoute] leaves of one registration: the entry of the route
    table and the event sent to the backend. *)
Definition recorded (fields dicts : list string)
  (entry : string * Route) (event : string * AddRoute) : Prop :=
  fst event = "route:added"
  /\ frame_handlerId (snd event) = fst entry
  /\ frame_routeMatcher (snd event)
     = annotateMatcherOptionsTypes fields dicts (route_options (snd entry))
  /\ (frame_staticResponse (snd event) = None
      <-> isHttpRequestInterceptor (route_handler (snd entry)) = true
          \/ route_handler (snd entry) = VUndefined).

(** The route table, the command log and the events sent so far agree,
    entry by entry. *)
Definition consistent (fields dicts : list string) (st : State) : Prop :=
  numbered st
  /\ Forall2 (recorded fields dicts) (routes st) (emitted st)
  /\ map (fun entry => route_log (snd entry)) (routes st) = logs st.

(** ** The cache script of the same source file ([circleCache])

    The script moves every [node_modules] directory of the workspace
    packages into one cache directory and back, and prints the key the
    cache is stored under.  Its [String.prototype] and
    [Array.prototype] calls are functions on strings and lists; paths
    are strings of one-byte characters. *)

Module JSString.

(** [s.slice(n)] for [0 <= n]. *)
Fixpoint slice (n : nat) (s : string) : string :=
  match n, s with
  | O, _ => s
  | S m, String _ r => slice m r
  | S _, EmptyString => EmptyString
  end.

(** [s.endsWith(suffix)] *)
Definition endsWith (s suffix : string) : bool :=
  (String.length suffix <=? String.length s)%nat
  && (slice (String.length s - String.length suffix) s =? suffix).

(** The first occurrence of [pattern] in [s], as [s.indexOf(pattern)]
    finds it: the text before it and the text after it. *)
Fixpoint search (pattern s : string) {struct s} : option (string * string) :=
  if String.prefix pattern s
  then Some ("", slice (String.length pattern) s)
  else match s with
       | EmptyString => None
       | String c r =>
           match search pattern r with
           | Some (before, after) => Some (String c before, after)
           | None => None
           end
       end.

Definition is_dollar (c : ascii) : bool := Ascii.eqb c "$".

Definition digit (c : ascii) : nat := nat_of_ascii c - 48.

(** The text of group [index], counted from 1; a reference to a group
    the pattern does not have stands for itself. *)
Definition group (captures : list string) (index : nat) (ref : string)
  : string :=
  match index with
  | O => ref
  | S i => match nth_error captures i with
           | Some capture => capture
           | None => ref
           end
  end.

(** [GetSubstitution(matched, str, position, captures, undefined,
    template)]: [$$], [$&], [$`], [$'] and the group references [$n]
    and [$nn] of a replacement text; [before] and [after] are the
    parts of [str] around the match. *)
Fixpoint getSubstitution (captures : list string)
  (matched before after template : string) {struct template} : string :=
  match template with
  | EmptyString => EmptyString
  | String c r =>
      if negb (is_dollar c)
      then String c (getSubstitution captures matched before after r)
      else
        match r with
        | EmptyString => "$"
        | String d r1 =>
            if is_dollar d
            then "$" ++ getSubstitution captures matched before after r1
            else if Ascii.eqb d "&"
            then matched ++ getSubstitution captures matched before after r1
            else if Ascii.eqb d "`"
            then before ++ getSubstitution captures matched before after r1
            else if Ascii.eqb d "'"
            then after ++ getSubstitution captures matched before after r1
            else if Lodash.is_digit d
            then
              let one :=
                group captures (digit d) (String c (String d ""))
                ++ getSubstitution captures matched before after r1 in
              match r1 with
              | String d2 r2 =>
                  if Lodash.is_digit d2
                     && (10 * digit d + digit d2 <=? List.length captures)%nat
                  then group captures (10 * digit d + digit d2)
                             (String c (String d (String d2 "")))
                       ++ getSubstitution captures matched before after r2
                  else one
              | EmptyString => one
              end
            else String c (getSubstitution captures matched before after r)
        end
  end.

(** [s.replace(pattern, template)] for a string [pattern]: the first
    occurrence is replaced. *)
Definition replace (s pattern template : string) : string :=
  match search pattern s with
  | Some (before, after) =>
      before ++ getSubstitution [] pattern before after template ++ after
  | None => s
  end.

(** A match of [/(.*?)literal/] at the start of [s]: the group takes as
    few characters as it can, none of them a line terminator.  The
    result is the group and the text after the match. *)
Fixpoint shortest (literal s : string) {struct s} : option (string * string) :=
  if String.prefix literal s
  then Some ("", slice (String.length literal) s)
  else match s with
       | EmptyString => None
       | String c r =>
           if Lodash.is_line_terminator c then None
           else match shortest literal r with
                | Some (g, after) => Some (String c g, after)
                | None => None
                end
       end.

(** The leftmost match of [/(.*?)literal/] in [s]: the text before it,
    the group and the text after it. *)
Fixpoint exec (literal s : string) {struct s}
  : option (string * string * string) :=
  match shortest literal s with
  | Some (g, after) => Some ("", g, after)
  | None =>
      match s with
      | EmptyString => None
      | String c r =>
          match exec literal r with
          | Some (before, g, after) => Some (String c before, g, after)
          | None => None
          end
      end
  end.

(** [s.replace(/(.*?)literal/, template)] *)
Definition replaceShortest (s literal template : string) : string :=
  match exec literal s with
  | Some (before, g, after) =>
      before
      ++ getSubstitution [g] (g ++ literal) before after template
      ++ after
  | None => s
  end.

(** The order of [Array.prototype.sort()] without a comparison
    function, on strings: by code units, a prefix first. *)
Fixpoint insert (x : string) (l : list string) : list string :=
  match l with
  | [] => [x]
  | y :: rest => if String.leb x y then x :: l else y :: insert x rest
  end.

(** [array.sort()] on strings. *)
Definition sort (l : list string) : list string := fold_right insert [] l.

End JSString.

(** What the script asks of the file system and of the console, in the
    order it asks, in a run in which the file system refuses nothing (a
    move that fails ends the script before it prints or removes
    anything). *)
Inductive request : Type :=
| Move (src dest : string)
| Remove (dir : string)
| Log (line : string).

(** [Promise.all] and a [map] whose function may throw: every result,
    or the failure. *)
Fixpoint all {A : Type} (l : list (option A)) : option (list A) :=
  match l with
  | [] => Some []
  | None :: _ => None
  | Some a :: rest =>
      match all rest with
      | Some r => Some (a :: r)
      | None => None
      end
  end.

Section CircleCache.

(** The surroundings of the script: [BASE_DIR] and [CACHE_DIR], which
    it computes from its own location with [path.join]; [path.join]
    itself; the [workspaces.packages] of the root [package.json];
    [require] on a [package.json], which returns its content or throws;
    [fast-json-stable-stringify]; and the SHA-1 digests of a file, which
    is read or is not, and of a string. *)
Variable BASE_DIR CACHE_DIR : string.
Variable path_join : string -> string -> string.
Variable workspacePaths : list string.
Variable require : string -> option value.
Variable stringify : value -> string.
Variable hashFile : string -> option string.
Variable hashString : string -> string.

Definition p (str : string) : string := path_join BASE_DIR str.

Definition packageGlobs : list string :=
  filter (fun s => JSString.endsWith s "/*") workspacePaths.

(** The destination of a [node_modules] directory in the cache. *)
Definition cachedPath (src : string) : string :=
  JSString.replace
    (JSString.replaceShortest src "/node_modules" "$1_node_modules")
    BASE_DIR CACHE_DIR.

(** The destination of a cached directory in the workspace. *)
Definition unpackedPath (src : string) : string :=
  JSString.replaceShortest
    (JSString.replace src CACHE_DIR BASE_DIR)
    "_node_modules" "$1/node_modules".

(** [prepareCircleCache], with [paths] the directories [globby] finds
    under the workspace packages. *)
Definition prepareCircleCache (paths : list string) : list request :=
  (map (fun src => Move src (cachedPath src)) paths
   ++ [Log ("Moved globbed node_modules for "
            ++ JS.join ", " packageGlobs ++ " to " ++ CACHE_DIR)])%list.

(** [unpackCircleCache], with [paths] the directories [globby] finds in
    the cache. *)
Definition unpackCircleCache (paths : list string) : list request :=
  (map (fun src => Move src (unpackedPath src)) paths
   ++ [Log ("Unpacked globbed node_modules from " ++ CACHE_DIR
            ++ " to " ++ JS.join ", " packageGlobs);
       Remove CACHE_DIR])%list.

(** The digest of the dependencies of one [package.json]; binding the
    four fields of [null] or [undefined] throws. *)
Definition hashPackage (pkg : value) : option string :=
  match pkg with
  | VUndefined | VNull => None
  | _ =>
      Some (hashString
              (stringify
                 (VObj [("name", JS.prop pkg "name");
                        ("dependencies", JS.prop pkg "dependencies");
                        ("devDependencies", JS.prop pkg "devDependencies");
                        ("peerDependencies",
                         JS.prop pkg "peerDependencies")])))
  end.

(** [cacheKey], with [patchFiles] and [packageJsons] the files [globby]
    finds: the key that is printed, or the failure. *)
Definition cacheKey (patchFiles packageJsons : list string) : option string :=
  let yarnLocks := [p "yarn.lock"] in
  match all (map require (JSString.sort packageJsons)) with
  | None => None
  | Some pkgs =>
      match all (map hashPackage pkgs) with
      | None => None
      | Some hashes =>
          let hashedPackageDeps := JS.join "" hashes in
          let filesToHash := JSString.sort (yarnLocks ++ patchFiles)%list in
          match all (map hashFile filesToHash) with
          | None => None
          | Some hashedFiles =>
              Some (hashString
                      (JS.join "" (hashedFiles ++ [hashedPackageDeps])%list))
          end
      end
  end.

End CircleCache.

(** *** Vocabulary of the statements about paths *)

(** No [$]: a text that stands for itself as a replacement. *)
Definition dollarfree (s : string) : bool :=
  Lodash.all_chars (fun c => negb (JSString.is_dollar c)) s.

(** [s.indexOf(pattern) === -1] *)
Definition absent (pattern s : string) : Prop :=
  JSString.search pattern s = None.

(** The moves among the requests, each with its source and its
    destination. *)
Definition moves (requests : list request) : list (string * string) :=
  flat_map (fun r => match r with
                     | Move src dest => [(src, dest)]
                     | _ => []
                     end) requests.

(** An end of [q] that is not empty is a start of [y]. *)
Fixpoint overlaps (q y : string) : bool :=
  match q with
  | EmptyString => false
  | String _ q' => String.prefix q y || overlaps q' y
  end.

(** * Properties *)

(** ** The shorthand forms of [route2] *)

(** C1, as the code has it: a string or pattern [u], with or without a
    handler [h] and no third argument, gives the matcher [{url: u}]; a
    string [m], a string or pattern [u] and a third argument [h] that is
    truthy give [{method: m, url: u}] with [h] as the handler; two
    arguments [m], [u] alone are read as a URL and its handler; a matcher
    object is used as it is; and an omitted handler registers no static
    response and is stored as it is. *)
Theorem C1_shorthand_forms :
  (forall u h, isStringMatcher u = true ->
     getMatcherOptions u h VUndefined = (urlMatcher u, h))
  /\ (forall m u h,
        Lodash.isString m = true -> isStringMatcher u = true ->
        JS.truthy h = true ->
        getMatcherOptions m u h = (methodUrlMatcher m u, h))
  /\ (forall o h arg2, getMatcherOptions (VObj o) h arg2 = (VObj o, h))
  /\ (forall validateStaticResponse,
        resolveHandler validateStaticResponse VUndefined
        = Ok (VUndefined, None)).
Proof.
  split; [| split; [| split]].
  - intros u h Hu. unfold getMatcherOptions.
    rewrite Hu. simpl JS.truthy. rewrite andb_false_r. reflexivity.
  - intros m u h Hm Hu Hh. unfold getMatcherOptions.
    rewrite Hm, Hu, Hh. reflexivity.
  - intros o h arg2. reflexivity.
  - intros validateStaticResponse. reflexivity.
Qed.

Lemma C1_shorthand_forms_witness :
  getMatcherOptions (VRegExp "/users/") VUndefined VUndefined
  = (urlMatcher (VRegExp "/users/"), VUndefined)
  /\ getMatcherOptions (VStr "GET") (VStr "/users") (VStr "hello")
     = (methodUrlMatcher (VStr "GET") (VStr "/users"), VStr "hello").
Proof.
  destruct C1_shorthand_forms as (Hurl & Hmethod & _).
  split.
  - apply Hurl. reflexivity.
  - apply Hmethod; reflexivity.
Defined.

(** C1 as stated fails for the pair form: [route2('GET', '/users')]
    builds the matcher [{url: 'GET'}] and keeps ['/users'] as the
    handler. *)
Lemma C1_method_url_counterexample :
  getMatcherOptions (VStr "GET") (VStr "/users") VUndefined
  = (urlMatcher (VStr "GET"), VStr "/users")
  /\ fst (getMatcherOptions (VStr "GET") (VStr "/users") VUndefined)
     <> methodUrlMatcher (VStr "GET") (VStr "/users").
Proof. split; [reflexivity | discriminate]. Qed.

(** ** Order of the effects of a registration *)

Section Registration.

Variable fields dicts : list string.
Variable validate : value -> outcome unit.
Variable backend : value -> value.

Local Abbreviation addRoute' := (addRoute fields dicts validate backend).
Local Abbreviation route2' := (route2 fields dicts validate backend).
Local Abbreviation validateOptions' :=
  (validateRouteMatcherOptions fields dicts).

Lemma getUniqueId_eq (now : Z) (st : State) :
  getUniqueId now st = (fst (getUniqueId now st), bumped st).
Proof. reflexivity. Qed.

Lemma addRoute_thrown env matcher handler st e :
  resolveHandler validate handler = Err e ->
  addRoute' env matcher handler st = (Err e, bumped st).
Proof.
  intros H. unfold addRoute.
  rewrite getUniqueId_eq, H. reflexivity.
Qed.

Lemma addRoute_returned env matcher handler st h sr :
  resolveHandler validate handler = Ok (h, sr) ->
  exists route frame,
    addRoute' env matcher handler st
    = (Ok tt,
       mkState (S (idCounter st))
               (put_route (fst (getUniqueId (clock env) st)) route
                          (routes st))
               (logs st ++ [route_log route])%list
               (emitted st ++ [("route:added", frame)])%list)
    /\ frame_handlerId frame = fst (getUniqueId (clock env) st)
    /\ frame_routeMatcher frame
       = annotateMatcherOptionsTypes fields dicts matcher
    /\ frame_staticResponse frame = option_map backend sr
    /\ route_handler route = h
    /\ route_options route = matcher
    /\ route_log route
       = getNewRouteLog matcher (JS.truthy h) (nextAlias env) sr.
Proof.
  intros H. unfold addRoute.
  rewrite getUniqueId_eq, H.
  eexists (mkRoute _ _ _ _ _ _), (mkAddRoute _ _ _).
  split; [reflexivity |].
  repeat split.
Qed.

Lemma route2_ending env matcher handler arg2 st :
  ending fields dicts validate backend env matcher handler arg2 st
    (fst (route2' env matcher handler arg2 st))
    (snd (route2' env matcher handler arg2 st)).
Proof.
  unfold route2.
  destruct (experimentalNetworkMocking env) eqn:Hgate; simpl.
  2: { now constructor. }
  destruct (getMatcherOptions matcher handler arg2) as [options h] eqn:Hopt.
  destruct (validateRouteMatcherOptions fields dicts options) as [[]|err]
    eqn:Hval.
  - destruct (resolveHandler validate h) as [[h' sr]|e] eqn:Hres.
    + destruct (addRoute_returned env options h st h' sr Hres)
        as (route & frame & Hadd & _).
      rewrite Hadd. simpl.
      eapply ends_registered; rewrite ?Hopt; simpl; eauto.
    + rewrite (addRoute_thrown env options h st e Hres). simpl.
      apply ends_at_handler; rewrite ?Hopt; simpl; auto.
  - simpl.
    replace options with (fst (getMatcherOptions matcher handler arg2))
      by (rewrite Hopt; reflexivity).
    apply ends_at_matcher; auto. rewrite Hopt. exact Hval.
Qed.


(** C3: a call of [route2] that ends in an error, whichever it is,
    leaves the route table as it was and sends nothing to the
    backend. *)
Theorem C3_failure_is_atomic env matcher handler arg2 st e st' :
  route2 fields dicts validate backend env matcher handler arg2 st
  = (Err e, st') ->
  routes st' = routes st /\ emitted st' = emitted st /\ logs st' = logs st.
Proof.
  intros Hcall.
  pose proof (route2_ending env matcher handler arg2 st) as E.
  rewrite Hcall in E. simpl in E.
  inversion E; subst; auto.
Qed.

End Registration.



Lemma C3_failure_is_atomic_witness :
  routes (bumped fresh) = routes fresh
  /\ emitted (bumped fresh) = emitted fresh
  /\ logs (bumped fresh) = logs fresh.
Proof.
  apply (C3_failure_is_atomic
           Collaborators.STRING_MATCHER_FIELDS
           Collaborators.DICT_STRING_MATCHER_FIELDS
           Collaborators.validateStaticResponse
           Collaborators.getBackendStaticResponse
           (enabled 1600000000000)
           (VObj [("url", VStr "/users")])
           (VObj [("body", VStr "x"); ("destroySocket", VBool true)])
           VUndefined fresh
           (invalid_static_response
              "`destroySocket` excludes `body` and `statusCode`."
              (VObj [("body", VStr "x"); ("destroySocket", VBool true)]))).
  reflexivity.
Defined.

(** ** Classification of the handler *)

Lemma mem_true_iff (k : string) (l : list string) :
  Lodash.mem k l = true <-> In k l.
Proof.
  unfold Lodash.mem. rewrite existsb_exists. split.
  - intros (x & Hin & Heq). apply String.eqb_eq in Heq. now subst.
  - intros Hin. exists k. split; [assumption | apply String.eqb_refl].
Qed.

Lemma intersection_from_nil (seen a b : list string) :
  (forall k, In k a -> ~ In k b) ->
  Lodash.intersection_from seen a b = [].
Proof.
  revert seen. induction a as [| k a IH]; intros seen Hdisjoint; simpl.
  - reflexivity.
  - destruct (Lodash.mem k b) eqn:Hmem.
    + apply mem_true_iff in Hmem. exfalso.
      apply (Hdisjoint k); [now left | assumption].
    + simpl. apply IH. intros k' Hin. apply Hdisjoint. now right.
Qed.






(** C10: the handler [{}] is found empty by lodash, so it is not
    replaced by a JSON response: it is what the static response
    validator receives and, when the validator returns, what is
    registered. *)
Theorem C10_empty_mapping_not_wrapped :
  forall validate,
    Lodash.isEmpty (VObj []) = true
    /\ resolveHandler validate (VObj []) = validated validate (VObj [])
    /\ VObj [] <> jsonResponse (VObj []).
Proof.
  intros validate. repeat split. discriminate.
Qed.


(** ** Handler identifiers *)

Lemma getUniqueId_handlerIdOf (now : Z) (st : State) :
  getUniqueId now st = (handlerIdOf now (S (idCounter st)), bumped st).
Proof. reflexivity. Qed.

Lemma no_dash_app_dash (a x : string) :
  no_dash (a ++ String "-" x) = false.
Proof.
  unfold no_dash. induction a as [| c a IH]; simpl.
  - reflexivity.
  - simpl in IH. rewrite IH. apply andb_false_r.
Qed.

Lemma app_dash_inj (a b x y : string) :
  no_dash x = true -> no_dash y = true ->
  a ++ "-" ++ x = b ++ "-" ++ y -> x = y.
Proof.
  intros Hx Hy. revert b.
  induction a as [| c a IH]; intros [| c' b] Heq; simpl in Heq.
  - now injection Heq.
  - injection Heq as _ Heq. subst x.
    rewrite no_dash_app_dash in Hx. discriminate.
  - injection Heq as _ Heq. subst y.
    rewrite no_dash_app_dash in Hy. discriminate.
  - injection Heq as _ Heq. now apply (IH b).
Qed.

Lemma no_dash_string_of_uint (d : Decimal.uint) :
  no_dash (NilEmpty.string_of_uint d) = true.
Proof. induction d; simpl; auto. Qed.

Lemma string_of_nat_inj (c c' : nat) :
  JS.string_of_nat c = JS.string_of_nat c' -> c = c'.
Proof.
  unfold JS.string_of_nat. intros Heq.
  apply DecimalNat.Unsigned.to_uint_inj.
  assert (H : Some (Nat.to_uint c) = Some (Nat.to_uint c'))
    by (rewrite <- !NilEmpty.usu; now f_equal).
  now injection H.
Qed.

Lemma handlerIdOf_inj (now now' : Z) (c c' : nat) :
  handlerIdOf now c = handlerIdOf now' c' -> c = c'.
Proof.
  unfold handlerIdOf. intros Heq.
  apply string_of_nat_inj.
  apply (app_dash_inj _ _ _ _
           (no_dash_string_of_uint _) (no_dash_string_of_uint _) Heq).
Qed.

Section Process.

Variable fields dicts : list string.
Variable validate : value -> outcome unit.
Variable backend : value -> value.

Lemma numbered_fresh : numbered fresh.
Proof. split; constructor. Qed.

Lemma numbered_bumped (st : State) : numbered st -> numbered (bumped st).
Proof.
  intros [Hnodup Hall]. split; [exact Hnodup |].
  unfold emittedIds in *. simpl.
  eapply Forall_impl; [| exact Hall].
  intros id (now & c & Hid & Hc). exists now, c. split; [assumption | lia].
Qed.

Lemma numbered_step (st : State) (a : action) :
  numbered st -> numbered (step fields dicts validate backend st a).
Proof.
  intros Hst. destruct a as [env matcher handler arg2 |]; simpl.
  2: { apply (numbered_bumped st Hst). }
  pose proof (route2_ending fields dicts validate backend
                env matcher handler arg2 st) as E.
  destruct (route2 fields dicts validate backend env matcher handler arg2 st)
    as [r st'] eqn:Hcall.
  simpl in *.
  inversion E as [Hg Hr Hs | err Hg Hv Hr Hs | e Hg Hv Hh Hr Hs
                 | h sr st'' Hg Hv Hh Ha Hr Hs]; subst; try assumption.
  - now apply numbered_bumped.
  - destruct (addRoute_returned fields dicts validate backend env
                (fst (getMatcherOptions matcher handler arg2)) _ st
                _ _ Hh) as (route & frame & Hadd & Hid & _).
    rewrite Hadd in Ha. injection Ha as <-.
    rewrite getUniqueId_handlerIdOf in Hid. simpl in Hid.
    destruct Hst as [Hnodup Hall].
    unfold numbered, emittedIds in *. simpl.
    rewrite map_app. simpl. rewrite Hid. split.
    + apply NoDup_app; [assumption | repeat constructor; intros [] |].
      intros id Hold [<- | []].
      rewrite Forall_forall in Hall.
      destruct (Hall _ Hold) as (now & c & Hc & Hle).
      apply handlerIdOf_inj in Hc. lia.
    + apply Forall_app. split.
      * eapply Forall_impl; [| exact Hall].
        intros id (now & c & Hc & Hle). exists now, c.
        split; [assumption | lia].
      * constructor; [| constructor].
        exists (clock env), (S (idCounter st)). split; [reflexivity | lia].
Qed.

Lemma numbered_run (actions : list action) (st : State) :
  numbered st -> numbered (run fields dicts validate backend actions st).
Proof.
  revert st. induction actions as [| a actions IH]; intros st Hst; simpl.
  - assumption.
  - apply IH. now apply numbered_step.
Qed.

End Process.

(** ** Paths *)

Lemma word_char_not_dot (c : ascii) :
  Lodash.is_word_char c = true -> Lodash.is_dot c = false.
Proof.
  unfold Lodash.is_dot. destruct (Ascii.eqb_spec c "."); [| reflexivity].
  subst c. discriminate.
Qed.

Lemma reIsPlainProp_dotfree (s : string) :
  Lodash.reIsPlainProp s = true -> dotfree s = true.
Proof.
  unfold Lodash.reIsPlainProp, dotfree.
  induction s as [| c s IH]; simpl; [reflexivity |].
  intros H. apply andb_true_iff in H. destruct H as [Hc Hs].
  rewrite (word_char_not_dot c Hc). simpl. auto.
Qed.

Lemma split_dot_dotfree (s : string) :
  dotfree s = true -> split_dot s = [s].
Proof.
  unfold dotfree. induction s as [| c s IH]; simpl; [reflexivity |].
  intros H. apply andb_true_iff in H. destruct H as [Hc Hs].
  apply negb_true_iff in Hc. rewrite Hc, (IH Hs). reflexivity.
Qed.

Lemma split_dot_app (d k : string) :
  dotfree d = true ->
  split_dot (d ++ "." ++ k) = d :: split_dot k.
Proof.
  unfold dotfree. induction d as [| c d IH]; simpl; [reflexivity |].
  intros H. apply andb_true_iff in H. destruct H as [Hc Hd].
  apply negb_true_iff in Hc. rewrite Hc.
  simpl in IH. rewrite (IH Hd). reflexivity.
Qed.

Lemma split_dot_segments (s : string) :
  Forall (fun k => dotfree k = true) (split_dot s)
  /\ split_dot s <> [].
Proof.
  induction s as [| c s [IH Hne]]; simpl.
  - split; [repeat constructor | discriminate].
  - destruct (Lodash.is_dot c) eqn:Hc.
    + split; [constructor; [reflexivity | assumption] | discriminate].
    + destruct (split_dot s) as [| h t]; [congruence |].
      split; [| discriminate].
      inversion IH; subst. constructor; [| assumption].
      unfold dotfree in *. simpl. rewrite Hc. simpl. assumption.
Qed.

Lemma dotfree_app_dot (d k : string) : dotfree (d ++ "." ++ k) = false.
Proof.
  unfold dotfree. induction d as [| c d IH]; simpl; [reflexivity |].
  simpl in IH. rewrite IH. apply andb_false_r.
Qed.

Lemma castPath_word (p : string) (object : value) :
  Lodash.reIsPlainProp p = true -> Lodash.castPath p object = [p].
Proof.
  intros H. unfold Lodash.castPath, Lodash.isKey. now rewrite H.
Qed.

Lemma pathfree_dotfree (s : string) : pathfree s = true -> dotfree s = true.
Proof.
  unfold pathfree, dotfree, Lodash.is_special.
  induction s as [| c s IH]; simpl; [reflexivity |].
  intros H. apply andb_true_iff in H. destruct H as [Hc Hs].
  rewrite (IH Hs), andb_true_r.
  destruct (Lodash.is_dot c); [discriminate | reflexivity].
Qed.

Lemma pathfree_bracketfree (s : string) :
  pathfree s = true -> bracketfree s = true.
Proof.
  unfold pathfree, bracketfree, Lodash.is_special.
  induction s as [| c s IH]; simpl; [reflexivity |].
  intros H. apply andb_true_iff in H. destruct H as [Hc Hs].
  rewrite (IH Hs), andb_true_r.
  rewrite <- orb_assoc in Hc.
  destruct (Lodash.is_dot c); [discriminate | exact Hc].
Qed.

Lemma bracketfree_app_dot (d k : string) :
  bracketfree d = true -> bracketfree k = true ->
  bracketfree (d ++ "." ++ k) = true.
Proof.
  unfold bracketfree. intros Hd Hk.
  induction d as [| c d IH]; simpl in *; [exact Hk |].
  apply andb_true_iff in Hd. destruct Hd as [Hc Hd].
  rewrite Hc. simpl. auto.
Qed.

Lemma reIsDeepProp_bracketfree (s : string) :
  bracketfree s = true -> Lodash.reIsDeepProp s = negb (dotfree s).
Proof.
  unfold bracketfree, dotfree.
  induction s as [| c s IH]; simpl; [reflexivity |].
  intros H. apply andb_true_iff in H. destruct H as [Hc Hs].
  apply negb_true_iff, orb_false_iff in Hc. destruct Hc as [Hopen _].
  rewrite Hopen, (IH Hs), negb_andb, negb_involutive. simpl.
  now rewrite orb_false_r.
Qed.


Lemma append_empty (s : string) : s ++ "" = s.
Proof. induction s as [| c s IH]; simpl; [reflexivity | now rewrite IH]. Qed.

Lemma append_char (run : string) (c : ascii) (h : string) :
  (run ++ String c "") ++ h = run ++ String c h.
Proof.
  induction run as [| c' run IH]; simpl; [reflexivity | now rewrite IH].
Qed.

(** What [rePropName] finds in a string without brackets: the pieces
    between the dots. *)
Lemma propNames_bracketfree (s : string) :
  bracketfree s = true ->
  (forall run,
     Lodash.propNames (Some run) 0 s
     = match split_dot s with
       | h :: t => (run ++ h) :: t
       | [] => [run]
       end)
  /\ (if Lodash.follows_empty s
      then "" :: Lodash.propNames None 0 s
      else Lodash.propNames None 0 s) = split_dot s.
Proof.
  unfold bracketfree.
  induction s as [| c s IH]; simpl.
  - intros _. split; [intros run; now rewrite append_empty | reflexivity].
  - intros H. apply andb_true_iff in H. destruct H as [Hc Hs].
    destruct (IH Hs) as [IHrun IHdots].
    apply negb_true_iff, orb_false_iff in Hc. destruct Hc as [Hopen Hclose].
    unfold Lodash.is_special. rewrite Hopen, Hclose.
    destruct (Lodash.is_dot c) eqn:Hdot; simpl.
    + split.
      * intros run. now rewrite IHdots, append_empty.
      * now rewrite IHdots.
    + split.
      * intros run. rewrite IHrun.
        destruct (split_dot s) as [| h t]; [reflexivity |].
        now rewrite append_char.
      * rewrite (IHrun (String c "")).
        destruct (split_dot s) as [| h t]; reflexivity.
Qed.

Lemma stringToPath_split_dot (s : string) :
  bracketfree s = true -> s <> "" -> Lodash.stringToPath s = split_dot s.
Proof.
  intros Hs Hne. destruct s as [| c r]; [congruence |].
  destruct (propNames_bracketfree (String c r) Hs) as [_ Hdots].
  unfold Lodash.stringToPath. rewrite <- Hdots. simpl.
  unfold bracketfree in Hs. simpl in Hs.
  apply andb_true_iff in Hs. destruct Hs as [Hc _].
  apply negb_true_iff, orb_false_iff in Hc. destruct Hc as [Hopen _].
  rewrite Hopen. destruct (Lodash.is_dot c); reflexivity.
Qed.

(** With no bracket in the path and no property named by the whole
    path, a path is cast to the pieces between its dots. *)
Lemma castPath_split_dot (p : string) (object : value) :
  bracketfree p = true ->
  dotfree p = true \/ JS.hasOwn object p = false ->
  Lodash.castPath p object = split_dot p.
Proof.
  intros Hb H. unfold Lodash.castPath, Lodash.isKey.
  rewrite (reIsDeepProp_bracketfree p Hb).
  destruct (dotfree p) eqn:Hp.
  - rewrite orb_true_r. simpl. symmetry. now apply split_dot_dotfree.
  - destruct H as [H | H]; [discriminate |]. rewrite H.
    destruct (Lodash.reIsPlainProp p) eqn:Hw.
    + apply reIsPlainProp_dotfree in Hw. congruence.
    + simpl. apply stringToPath_split_dot; [assumption |].
      intros ->. discriminate.
Qed.

Lemma lookup_none_dotted (o : obj) (p : string) :
  dotfree_keys o -> dotfree p = false -> JS.lookup p o = None.
Proof.
  intros Ho Hp. induction Ho as [| [k v] o Hk _ IH]; simpl; [reflexivity |].
  destruct (String.eqb_spec p k); [| assumption].
  subst k. simpl in Hk. congruence.
Qed.


Lemma find_none_all {A : Type} (P : A -> bool) (l : list A) :
  (forall x, In x l -> P x = false) -> find P l = None.
Proof.
  induction l as [| a l IH]; intros H; simpl; [reflexivity |].
  rewrite (H a (or_introl eq_refl)). apply IH. intros x Hx. apply H. now right.
Qed.

(** ** Reads with a computed key *)

Lemma member_own (v : value) (k : string) (x : value) :
  JS.own v k = Some x -> JS.member v k = x.
Proof. intros H. unfold JS.member. now rewrite H. Qed.

Lemma member_lookup (o : obj) (k : string) (x : value) :
  JS.lookup k o = Some x -> JS.member (VObj o) k = x.
Proof. apply (member_own (VObj o)). Qed.

Lemma member_absent (v : value) (k : string) :
  JS.own v k = None -> JS.inherited v k = None ->
  JS.member v k = VUndefined.
Proof. intros Ho Hi. unfold JS.member. now rewrite Ho, Hi. Qed.

Lemma inherited_tableName (v : value) (g : string) :
  tableName g -> JS.inherited v g = None.
Proof.
  intros [Hg | Hg]; simpl in Hg; destruct Hg as [<- | [<- | []]];
    destruct v; reflexivity.
Qed.

Lemma member_tableName (v : value) (g : string) :
  tableName g -> JS.member v g = JS.prop v g.
Proof.
  intros Hg. unfold JS.member, JS.prop.
  now rewrite (inherited_tableName v g Hg).
Qed.

(** ** Property lists *)

Lemma lookup_assign_other (o : obj) (k f : string) (x : value) :
  f <> k -> JS.lookup f (JS.assign o k x) = JS.lookup f o.
Proof.
  intros Hne. induction o as [| [k' v] o IH]; simpl.
  - destruct (String.eqb_spec f k); [contradiction | reflexivity].
  - destruct (String.eqb_spec k k'); simpl.
    + subst k'. destruct (String.eqb_spec f k); [contradiction | reflexivity].
    + destruct (String.eqb_spec f k'); [reflexivity | assumption].
Qed.

Lemma lookup_assign_same (o : obj) (k : string) (x : value) :
  JS.lookup k (JS.assign o k x) = Some x.
Proof.
  induction o as [| [k' v] o IH]; simpl.
  - now rewrite String.eqb_refl.
  - destruct (String.eqb_spec k k') as [-> | Hne]; simpl.
    + now rewrite String.eqb_refl.
    + destruct (String.eqb_spec k k'); [contradiction | assumption].
Qed.

Lemma dotfree_keys_assign (o : obj) (k : string) (x : value) :
  dotfree_keys o -> dotfree k = true -> dotfree_keys (JS.assign o k x).
Proof.
  intros Ho Hk. induction Ho as [| [k' v] o Hk' Ho IH]; simpl.
  - repeat constructor. assumption.
  - destruct (k =? k'); constructor; assumption.
Qed.

(** ** Writes of the annotator *)




Lemma pick_basePick (options : value) :
  Lodash.pick options noAnnotationRequiredFields
  = Lodash.basePick options noAnnotationRequiredFields.
Proof. destruct options; reflexivity. Qed.

Lemma baseGet_own (options : value) (g : string) (v : value) :
  Lodash.reIsPlainProp g = true -> JS.own options g = Some v ->
  Lodash.baseGet options g = v.
Proof.
  intros Hg Hown. unfold Lodash.baseGet. rewrite castPath_word by assumption.
  simpl. unfold JS.member. rewrite Hown.
  destruct options; try reflexivity; discriminate.
Qed.

(** [_.pick] of the three fields: the fields the matcher owns, with the
    values it has for them. *)
Lemma pick_lookup (options : value) :
  exists s,
    Lodash.pick options noAnnotationRequiredFields = VObj s
    /\ (forall g, In g (map fst s) -> In g noAnnotationRequiredFields)
    /\ (forall g, In g noAnnotationRequiredFields ->
                  JS.lookup g s = JS.own options g).
Proof.
  rewrite pick_basePick.
  unfold Lodash.basePick, noAnnotationRequiredFields, fold_left.
  rewrite !castPath_word by reflexivity.
  unfold Lodash.hasPath, JS.hasOwn.
  destruct (JS.own options "https") as [h |] eqn:Hh;
    destruct (JS.own options "port") as [p |] eqn:Hp;
    destruct (JS.own options "webSocket") as [w |] eqn:Hw;
    rewrite ?(baseGet_own options "https" h eq_refl Hh),
            ?(baseGet_own options "port" p eq_refl Hp),
            ?(baseGet_own options "webSocket" w eq_refl Hw);
    cbn; eexists; (split; [reflexivity |]); split;
    try (cbn; tauto);
    intros g [<- | [<- | [<- | []]]]; cbn; congruence.
Qed.



(** ** Keys that contain a dot *)

(** C4 at [{headers: {"a.b": 5}}]: the entry [a.b] of [headers] is
    present and holds a number, its path is among the fields the
    validator visits, and yet [_.has] does not find it and the matcher is
    accepted. *)
Theorem C4_dotted_entry_accepted :
  JS.own (JS.prop dottedHeader "headers") "a.b" = Some (VNum 5)
  /\ isStringMatcher (VNum 5) = false
  /\ getAllStringMatcherFields Collaborators.STRING_MATCHER_FIELDS
       Collaborators.DICT_STRING_MATCHER_FIELDS dottedHeader
     = ["method"; "url"; "headers.a.b"]
  /\ Lodash.castPath "headers.a.b" dottedHeader = ["headers"; "a"; "b"]
  /\ Lodash.has dottedHeader "headers.a.b" = false
  /\ validateMatcher dottedHeader = Returned tt.
Proof. repeat split. Qed.

(** [{url: "", https: true}], [{query: {"user.name": "bob"}}] and
    [{query: {"filter[name]": "bob"}}] are valid; the annotated form of
    the first is that of [{https: true}] and the annotated forms of the
    other two are empty. *)
Example annotation_drops_fields :
  validateMatcher emptyUrl = Returned tt
  /\ annotate emptyUrl = VObj [("https", VBool true)]
  /\ annotate emptyUrl = annotate (VObj [("https", VBool true)])
  /\ validateMatcher dottedQuery = Returned tt
  /\ JS.own (JS.prop dottedQuery "query") "user.name" = Some (VStr "bob")
  /\ annotate dottedQuery = VObj []
  /\ validateMatcher bracketedQuery = Returned tt
  /\ Lodash.castPath "query.filter[name]" bracketedQuery
     = ["query"; "filter"; "name"]
  /\ annotate bracketedQuery = VObj [].
Proof. repeat split. Qed.

(** ** Places of a matcher *)

Lemma place_eq_dec (l l' : place) : {l = l'} + {l <> l'}.
Proof. decide equality; apply string_dec. Defined.

Lemma getAllStringMatcherFields_places (options : value) :
  getAllStringMatcherFields Collaborators.STRING_MATCHER_FIELDS
    Collaborators.DICT_STRING_MATCHER_FIELDS options
  = map path_of (places options).
Proof.
  unfold getAllStringMatcherFields, places.
  rewrite map_app, map_map, concat_map, map_map. simpl map at 2.
  rewrite map_id. f_equal. f_equal.
  apply map_ext. intros d.
  destruct (JS.truthy (JS.prop options d)); [| reflexivity].
  now rewrite map_map.
Qed.

Lemma prop_assign_same (r : obj) (k : string) (x : value) :
  JS.prop (VObj (JS.assign r k x)) k = x.
Proof. unfold JS.prop, JS.own. now rewrite lookup_assign_same. Qed.

Lemma prop_assign_other (r : obj) (k f : string) (x : value) :
  f <> k -> JS.prop (VObj (JS.assign r k x)) f = JS.prop (VObj r) f.
Proof.
  intros H. unfold JS.prop, JS.own. now rewrite lookup_assign_other.
Qed.

Lemma shaped_assign (r : obj) (k : string) (x : value) :
  shaped r -> dotfree k = true ->
  (In k Collaborators.DICT_STRING_MATCHER_FIELDS -> exists e, x = VObj e) ->
  shaped (JS.assign r k x).
Proof.
  intros [Hkeys Hdict] Hk Hx. split.
  - now apply dotfree_keys_assign.
  - intros d Hd. destruct (string_dec d k) as [-> | Hne].
    + right. destruct (Hx Hd) as (e & ->). exists e.
      apply lookup_assign_same.
    + rewrite lookup_assign_other by assumption. now apply Hdict.
Qed.

(** One write of the annotator at a place. *)
Lemma set_place (r : obj) (l : place) (x : value) :
  shaped r -> recognized l -> plainPlace l ->
  exists r',
    Lodash.set (VObj r) (path_of l) x = VObj r'
    /\ shaped r'
    /\ read (VObj r') l = x
    /\ (forall l', recognized l' -> l' <> l ->
                   read (VObj r') l' = read (VObj r) l')
    /\ (forall g, ~ tableName g -> JS.lookup g r' = JS.lookup g r).
Proof.
  intros Hr Hl Hplain. destruct l as [f | d k]; simpl in Hl, Hplain.
  - assert (Hset : Lodash.set (VObj r) f x = VObj (JS.assign r f x)).
    { unfold Lodash.set. simpl JS.isObject. cbv iota.
      destruct Hl as [<- | [<- | []]]; reflexivity. }
    assert (Hf : dotfree f = true)
      by (destruct Hl as [<- | [<- | []]]; reflexivity).
    exists (JS.assign r f x). split; [exact Hset |].
    split; [| split; [| split]].
    + apply shaped_assign; [assumption.. |].
      intros Hd. exfalso. simpl in Hd.
      destruct Hl as [<- | [<- | []]];
        destruct Hd as [Hd | [Hd | []]]; discriminate.
    + apply prop_assign_same.
    + intros [f' | d' k'] Hl' Hne; simpl in *.
      * apply prop_assign_other. congruence.
      * rewrite prop_assign_other; [reflexivity |].
        intros ->. destruct Hl as [<- | [<- | []]];
          destruct Hl' as [Hl' | [Hl' | []]]; discriminate.
    + intros g Hg. apply lookup_assign_other.
      intros ->. apply Hg. now left.
  - destruct Hplain as (Hfree & Hindex & Hsafe).
    pose proof (pathfree_dotfree k Hfree) as Hk.
    pose proof (pathfree_bracketfree k Hfree) as Hkb.
    assert (Hd : dotfree d = true /\ bracketfree d = true
                 /\ Lodash.unsafe_key d = false)
      by (destruct Hl as [<- | [<- | []]]; repeat split; reflexivity).
    destruct Hd as (Hd & Hdb & Hdsafe).
    pose (child := match JS.lookup d r with
                   | Some (VObj e) => e
                   | _ => []
                   end).
    assert (Hset : Lodash.set (VObj r) (d ++ "." ++ k) x
                   = VObj (JS.assign r d (VObj (JS.assign child k x)))).
    { unfold Lodash.set. simpl JS.isObject. cbv iota.
      rewrite castPath_split_dot.
      2: { now apply bracketfree_app_dot. }
      2: { right. unfold JS.hasOwn, JS.own.
           rewrite lookup_none_dotted;
             [reflexivity | apply Hr | apply dotfree_app_dot]. }
      rewrite split_dot_app, split_dot_dotfree by assumption.
      simpl Lodash.setPath. rewrite Hdsafe, Hsafe, Hindex.
      rewrite (member_tableName (VObj r) d (or_intror Hl)).
      unfold child, JS.prop, JS.own.
      destruct Hr as [_ Hdict].
      destruct (Hdict d Hl) as [-> | (e & ->)]; reflexivity. }
    exists (JS.assign r d (VObj (JS.assign child k x))).
    split; [exact Hset |]. split; [| split; [| split]].
    + apply shaped_assign; [assumption.. |]. intros _. eauto.
    + simpl. rewrite prop_assign_same. apply prop_assign_same.
    + intros [f' | d' k'] Hl' Hne; simpl in *.
      * apply prop_assign_other. intros ->.
        destruct Hl as [<- | [<- | []]];
          destruct Hl' as [Hl' | [Hl' | []]]; discriminate.
      * destruct (string_dec d' d) as [-> | Hdd].
        -- rewrite prop_assign_same.
           assert (Hkk : k' <> k) by congruence.
           rewrite prop_assign_other by assumption.
           assert (Hchild : JS.prop (VObj child) k'
                            = JS.prop (JS.prop (VObj r) d) k').
           { unfold child. destruct Hr as [_ Hdict].
             destruct (Hdict d Hl) as [Hnone | (e & Hsome)].
             - unfold JS.prop at 3, JS.own. rewrite Hnone. reflexivity.
             - unfold JS.prop at 3, JS.own. rewrite Hsome. reflexivity. }
           exact Hchild.
        -- now rewrite prop_assign_other.
    + intros g Hg. apply lookup_assign_other.
      intros ->. apply Hg. now right.
Qed.

(** The annotator's pass over a list of places: a place that was
    visited with a truthy value holds its annotation, every other place
    is as before. *)
Lemma annotate_fold_places (options : value) (L : list place) :
  Forall (fun l => recognized l /\ plainPlace l) L ->
  forall r, shaped r ->
  exists r',
    fold_left (annotateField options) (map path_of L) (VObj r) = VObj r'
    /\ shaped r'
    /\ (forall l, recognized l -> In l L ->
          JS.truthy (Lodash.get options (path_of l)) = true ->
          read (VObj r') l = annotation (Lodash.get options (path_of l)))
    /\ (forall l, recognized l ->
          ~ In l L \/ JS.truthy (Lodash.get options (path_of l)) = false ->
          read (VObj r') l = read (VObj r) l)
    /\ (forall g, ~ tableName g -> JS.lookup g r' = JS.lookup g r).
Proof.
  induction 1 as [| l0 L [Hrec0 Hplain0] HL IH]; intros r Hr; simpl.
  - exists r. split; [reflexivity |]. split; [assumption |].
    split; [intros l _ [] |]. split; auto.
  - assert (Hstep :
      exists r1,
        annotateField options (VObj r) (path_of l0) = VObj r1
        /\ shaped r1
        /\ (JS.truthy (Lodash.get options (path_of l0)) = true ->
            read (VObj r1) l0 = annotation (Lodash.get options (path_of l0)))
        /\ (forall l, recognized l ->
              l <> l0
              \/ JS.truthy (Lodash.get options (path_of l0)) = false ->
              read (VObj r1) l = read (VObj r) l)
        /\ (forall g, ~ tableName g -> JS.lookup g r1 = JS.lookup g r)).
    { unfold annotateField.
      destruct (JS.truthy (Lodash.get options (path_of l0))) eqn:Htruthy.
      - destruct (set_place r l0 (annotation (Lodash.get options (path_of l0)))
                    Hr Hrec0 Hplain0)
          as (r1 & Hset & Hr1 & Hread & Hframe & Hrest).
        exists r1. split; [exact Hset |]. split; [assumption |].
        split; [auto |]. split; [| assumption].
        intros l Hl [Hne | Hfalse]; [auto | discriminate].
      - exists r. split; [reflexivity |]. split; [assumption |].
        split; [discriminate |]. split; auto. }
    destruct Hstep as (r1 & -> & Hr1 & Hread1 & Hframe1 & Hrest1).
    destruct (IH r1 Hr1) as (r' & -> & Hr' & Hread & Hframe & Hrest).
    exists r'. split; [reflexivity |]. split; [assumption |].
    split; [| split].
    + intros l Hl Hin Htruthy.
      destruct (in_dec place_eq_dec l L) as [HinL | HninL].
      * now apply Hread.
      * destruct Hin as [<- | Hin]; [| contradiction].
        rewrite Hframe by auto. now apply Hread1.
    + intros l Hl Hcase.
      rewrite Hframe.
      * apply Hframe1; [assumption |].
        destruct Hcase as [Hnin | Hfalse].
        -- left. intros ->. apply Hnin. now left.
        -- destruct (place_eq_dec l l0) as [-> | Hne]; [now right | now left].
      * assumption.
      * destruct Hcase as [Hnin | Hfalse]; [left | now right].
        intros Hin. apply Hnin. now right.
    + intros g Hg. rewrite Hrest, Hrest1; auto.
Qed.

(** ** Matchers with plain keys *)

Lemma prop_lookup (o : obj) (k : string) :
  JS.prop (VObj o) k
  = match JS.lookup k o with Some v => v | None => VUndefined end.
Proof. reflexivity. Qed.

Lemma plainMatcher_dict (o : obj) (d : string) :
  plainMatcher o ->
  In d Collaborators.DICT_STRING_MATCHER_FIELDS ->
  JS.truthy (JS.prop (VObj o) d) = true ->
  exists e,
    JS.lookup d o = Some (VObj e)
    /\ Forall (fun kv => plainKey (fst kv)) e.
Proof.
  intros [_ Hdict] Hd Htruthy. rewrite prop_lookup in Htruthy.
  destruct (JS.lookup d o) as [v |] eqn:Hv; [| discriminate].
  destruct (Hdict d v Hd Hv Htruthy) as (e & -> & He). eauto.
Qed.

Lemma in_places (options : value) (l : place) :
  In l (places options) <->
  match l with
  | Top f => In f Collaborators.STRING_MATCHER_FIELDS
  | Nested d k =>
      In d Collaborators.DICT_STRING_MATCHER_FIELDS
      /\ JS.truthy (JS.prop options d) = true
      /\ In k (Lodash.keys (JS.prop options d))
  end.
Proof.
  unfold places. rewrite in_app_iff, in_map_iff, in_concat. split.
  - intros [(f & <- & Hf) | (ls & Hls & Hl)]; [assumption |].
    apply in_map_iff in Hls. destruct Hls as (d & <- & Hd).
    destruct (JS.truthy (JS.prop options d)) eqn:Ht; [| contradiction].
    apply in_map_iff in Hl. destruct Hl as (k & <- & Hk). auto.
  - destruct l as [f | d k].
    + intros Hf. left. eauto.
    + intros (Hd & Ht & Hk). right.
      exists (map (Nested d) (Lodash.keys (JS.prop options d))). split.
      * apply in_map_iff. exists d. rewrite Ht. auto.
      * now apply in_map.
Qed.

Lemma places_plain (o : obj) :
  plainMatcher o ->
  Forall (fun l => recognized l /\ plainPlace l) (places (VObj o)).
Proof.
  intros Ho. apply Forall_forall. intros [f | d k] Hl;
    apply in_places in Hl; simpl.
  - auto.
  - destruct Hl as (Hd & Ht & Hk). split; [assumption |].
    destruct (plainMatcher_dict o d Ho Hd Ht) as (e & He & Hplain).
    rewrite prop_lookup, He in Hk. simpl in Hk.
    rewrite Forall_forall in Hplain.
    apply in_map_iff in Hk. destruct Hk as (kv & <- & Hkv).
    now apply Hplain.
Qed.

Lemma in_keys_lookup (e : obj) (k : string) :
  In k (map fst e) -> exists v, JS.lookup k e = Some v.
Proof.
  induction e as [| [k' v] e IH]; simpl; [contradiction |].
  intros [-> | Hin].
  - rewrite String.eqb_refl. eauto.
  - destruct (k =? k'); eauto.
Qed.

(** On a plain matcher, [_.get] and [_.has] at the path of a place read
    the place. *)
Lemma get_place (o : obj) (l : place) :
  plainMatcher o -> In l (places (VObj o)) ->
  Lodash.get (VObj o) (path_of l) = read (VObj o) l
  /\ Lodash.has (VObj o) (path_of l)
     = match l with
       | Top f => JS.hasOwn (VObj o) f
       | Nested d k => true
       end.
Proof.
  intros Ho Hl. pose proof Hl as Hin. apply in_places in Hin.
  destruct l as [f | d k]; unfold path_of, read.
  - simpl in Hin. destruct Hin as [<- | [<- | []]]; split; reflexivity.
  - destruct Hin as (Hd & Ht & Hk).
    destruct (plainMatcher_dict o d Ho Hd Ht) as (e & He & Hplain).
    assert (Hdd : dotfree d = true /\ bracketfree d = true)
      by (destruct Hd as [<- | [<- | []]]; split; reflexivity).
    destruct Hdd as [Hdd Hdb].
    assert (Hfree : pathfree k = true).
    { rewrite prop_lookup, He in Hk. simpl in Hk.
      rewrite Forall_forall in Hplain.
      apply in_map_iff in Hk. destruct Hk as (kv & <- & Hkv).
      now apply Hplain. }
    pose proof (pathfree_dotfree k Hfree) as Hkk.
    pose proof (pathfree_bracketfree k Hfree) as Hkb.
    assert (Hcast : Lodash.castPath (d ++ "." ++ k) (VObj o) = [d; k]).
    { rewrite castPath_split_dot.
      - now rewrite split_dot_app, split_dot_dotfree.
      - now apply bracketfree_app_dot.
      - right. unfold JS.hasOwn, JS.own.
        rewrite lookup_none_dotted;
          [reflexivity | apply Ho | apply dotfree_app_dot]. }
    rewrite prop_lookup, He in Hk. simpl in Hk.
    destruct (in_keys_lookup e k Hk) as (v & Hv).
    unfold Lodash.get, Lodash.baseGet, Lodash.has. rewrite Hcast.
    cbn [Lodash.walk Lodash.hasPath].
    rewrite (member_lookup o d _ He), (member_lookup e k _ Hv).
    rewrite prop_lookup, He, prop_lookup, Hv.
    unfold JS.hasOwn, JS.own. rewrite He, Hv. split; reflexivity.
Qed.

Lemma falsy_prop (v : value) (k : string) :
  JS.truthy v = false -> JS.truthy (JS.prop v k) = false.
Proof.
  destruct v; intros H; try discriminate; try reflexivity.
  simpl in H. apply negb_false_iff, String.eqb_eq in H. subst s.
  unfold JS.prop, JS.own. simpl. destruct (k =? "length"); reflexivity.
Qed.

(** A place that the annotator does not visit holds nothing truthy. *)
Lemma unvisited_place (o : obj) (l : place) :
  plainMatcher o -> recognized l -> ~ In l (places (VObj o)) ->
  JS.truthy (read (VObj o) l) = false.
Proof.
  intros Ho Hl Hnin. destruct l as [f | d k]; simpl in *.
  - exfalso. apply Hnin. now apply in_places.
  - destruct (JS.truthy (JS.prop (VObj o) d)) eqn:Ht.
    + destruct (plainMatcher_dict o d Ho Hl Ht) as (e & He & _).
      rewrite prop_lookup, He. rewrite prop_lookup.
      destruct (JS.lookup k e) as [v |] eqn:Hv; [| reflexivity].
      exfalso. apply Hnin. apply in_places. repeat split; try assumption.
      rewrite prop_lookup, He. simpl.
      clear - Hv. induction e as [| [k' v'] e IH]; simpl in *;
        [discriminate |].
      destruct (String.eqb_spec k k'); [now left | right; auto].
    + now apply falsy_prop.
Qed.

(** ** The fields copied without annotation *)

Lemma extend_lookup (keys : list string) (source : value) (g : string) :
  forall r,
    exists r',
      fold_left (fun o k => Lodash.assignValue o k (JS.prop source k))
                keys (VObj r) = VObj r'
      /\ JS.lookup g r'
         = (if Lodash.mem g keys then Some (JS.prop source g)
            else JS.lookup g r)
      /\ (Forall (fun k => dotfree k = true) keys ->
          dotfree_keys r -> dotfree_keys r').
Proof.
  induction keys as [| k keys IH]; intros r; simpl.
  - exists r. auto.
  - destruct (IH (JS.assign r k (JS.prop source k)))
      as (r' & -> & Hr' & Hfree).
    exists r'. split; [reflexivity |]. split.
    + rewrite Hr'. destruct (Lodash.mem g keys) eqn:Hmem.
      * now rewrite orb_true_r.
      * rewrite orb_false_r. destruct (String.eqb_spec g k) as [-> | Hne].
        -- apply lookup_assign_same.
        -- now apply lookup_assign_other.
    + intros Hkeys Hr. inversion Hkeys; subst.
      apply Hfree; [assumption |]. now apply dotfree_keys_assign.
Qed.

(** The annotated form of a plain matcher: at every recognized place
    the annotation of what the matcher holds there, if that is truthy,
    and nothing otherwise; the three copied fields as the matcher has
    them. *)
Lemma annotate_plain (o : obj) :
  plainMatcher o ->
  exists a,
    annotate (VObj o) = VObj a
    /\ shaped a
    /\ (forall l, recognized l ->
          read (VObj a) l
          = if JS.truthy (read (VObj o) l)
            then annotation (read (VObj o) l) else VUndefined)
    /\ (forall g, In g noAnnotationRequiredFields ->
                  JS.lookup g a = JS.lookup g o).
Proof.
  intros Ho. unfold annotate, annotateMatcherOptionsTypes.
  rewrite getAllStringMatcherFields_places.
  destruct (annotate_fold_places (VObj o) (places (VObj o))
              (places_plain o Ho) [])
    as (r & -> & Hr & Hread & Hframe & Hrest).
  { split; [constructor | auto]. }
  destruct (pick_lookup (VObj o)) as (s & -> & Hkeys & Hown).
  unfold Lodash.extend. simpl Lodash.keys.
  assert (Hext : forall g, exists a,
             fold_left (fun o k => Lodash.assignValue o k (JS.prop (VObj s) k))
                       (map fst s) (VObj r) = VObj a
             /\ JS.lookup g a
                = (if Lodash.mem g (map fst s)
                   then Some (JS.prop (VObj s) g) else JS.lookup g r)
             /\ (Forall (fun k => dotfree k = true) (map fst s) ->
                 dotfree_keys r -> dotfree_keys a)).
  { intros g. apply extend_lookup. }
  destruct (Hext "") as (a & Ha & _ & Hfree). exists a.
  split; [exact Ha |].
  assert (Hlook : forall g,
             JS.lookup g a
             = if Lodash.mem g (map fst s)
               then Some (JS.prop (VObj s) g) else JS.lookup g r).
  { intros g. destruct (Hext g) as (a' & Ha' & Hg & _).
    rewrite Ha in Ha'. injection Ha' as <-. exact Hg. }
  assert (Hother : forall g, ~ In g noAnnotationRequiredFields ->
                             JS.lookup g a = JS.lookup g r).
  { intros g Hg. rewrite Hlook.
    destruct (Lodash.mem g (map fst s)) eqn:Hmem; [| reflexivity].
    apply mem_true_iff in Hmem. elim Hg. now apply Hkeys. }
  assert (Hnames : forall g, tableName g -> ~ In g noAnnotationRequiredFields).
  { intros g [Hg | Hg] Hin; simpl in Hg, Hin;
      destruct Hg as [<- | [<- | []]];
      destruct Hin as [Hin | [Hin | [Hin | []]]]; discriminate. }
  split; [| split].
  - destruct Hr as [Hkeys_r Hdict]. split.
    + apply Hfree; [| assumption].
      apply Forall_forall. intros k Hk. apply Hkeys in Hk. simpl in Hk.
      destruct Hk as [<- | [<- | [<- | []]]]; reflexivity.
    + intros d Hd. rewrite Hother; [now apply Hdict |].
      apply Hnames. now right.
  - intros l Hl.
    assert (Hsame : read (VObj a) l = read (VObj r) l).
    { destruct l as [f | d k]; simpl in *; rewrite !prop_lookup.
      - rewrite Hother; [reflexivity | apply Hnames; now left].
      - rewrite Hother; [reflexivity | apply Hnames; now right]. }
    rewrite Hsame.
    destruct (in_dec place_eq_dec l (places (VObj o))) as [Hin | Hnin].
    + destruct (get_place o l Ho Hin) as [Hget _].
      destruct (JS.truthy (read (VObj o) l)) eqn:Ht.
      * rewrite <- Hget. apply Hread; [assumption.. |]. now rewrite Hget.
      * rewrite Hframe; [| assumption | right; now rewrite Hget].
        destruct l; reflexivity.
    + rewrite (unvisited_place o l Ho Hl Hnin).
      rewrite Hframe; [| assumption | now left].
      destruct l; reflexivity.
  - intros g Hg. change (JS.lookup g o) with (JS.own (VObj o) g).
    rewrite Hlook, <- (Hown g Hg).
    destruct (Lodash.mem g (map fst s)) eqn:Hmem.
    + apply mem_true_iff in Hmem.
      destruct (in_keys_lookup s g Hmem) as (v & Hv).
      rewrite prop_lookup, Hv. reflexivity.
    + rewrite Hrest.
      * simpl. destruct (JS.lookup g s) as [v |] eqn:Hv; [| reflexivity].
        exfalso. assert (Hin : In g (map fst s)).
        { clear - Hv. induction s as [| [k' v'] s IH]; simpl in *;
            [discriminate |].
          destruct (String.eqb_spec g k'); [now left | right; auto]. }
        apply mem_true_iff in Hin. congruence.
      * intros Ht. now apply (Hnames g).
Qed.

(** ** Annotation followed by rehydration *)

Lemma rehydrateValue_annotation (v : value) :
  isStringMatcher v = true ->
  Collaborators.rehydrateValue (annotation v) = v.
Proof.
  unfold isStringMatcher, annotation, isRegExp.
  destruct v; rewrite ?andb_false_r; simpl; try discriminate; reflexivity.
Qed.

Lemma lookup_map_values (F : value -> value) (e : obj) (k : string) :
  JS.lookup k (map (fun kv => (fst kv, F (snd kv))) e)
  = option_map F (JS.lookup k e).
Proof.
  induction e as [| [k' v] e IH]; simpl; [reflexivity |].
  destruct (k =? k'); [reflexivity | assumption].
Qed.

Lemma lookup_rehydrate (a : obj) (k : string) :
  JS.lookup k (map Collaborators.rehydrateEntry a)
  = option_map (fun v => snd (Collaborators.rehydrateEntry (k, v)))
               (JS.lookup k a).
Proof.
  induction a as [| [k' v] a IH]; simpl; [reflexivity |].
  assert (Hfst : fst (Collaborators.rehydrateEntry (k', v)) = k').
  { unfold Collaborators.rehydrateEntry.
    destruct (Lodash.mem (fst (k', v)) Collaborators.STRING_MATCHER_FIELDS);
      [reflexivity |].
    destruct (Lodash.mem (fst (k', v))
                Collaborators.DICT_STRING_MATCHER_FIELDS);
      reflexivity. }
  destruct (Collaborators.rehydrateEntry (k', v)) as [k'' v'] eqn:Hentry.
  simpl in Hfst. subst k''.
  destruct (String.eqb_spec k k') as [-> | Hne].
  - simpl. now rewrite Hentry.
  - assumption.
Qed.

(** Rehydration reads, at every recognized place, the value the tagged
    value there stands for. *)
Lemma read_rehydrate (a : obj) (l : place) :
  shaped a -> recognized l ->
  read (Collaborators.rehydrate (VObj a)) l
  = Collaborators.rehydrateValue (read (VObj a) l).
Proof.
  intros [_ Hdict] Hl. destruct l as [f | d k]; simpl in *.
  - rewrite !prop_lookup, lookup_rehydrate.
    destruct (JS.lookup f a) as [v |]; [| reflexivity].
    destruct Hl as [<- | [<- | []]]; reflexivity.
  - rewrite (prop_lookup (map _ a)), (prop_lookup a), lookup_rehydrate.
    destruct (Hdict d Hl) as [-> | (e & ->)]; [reflexivity |].
    assert (Hentry : snd (Collaborators.rehydrateEntry (d, VObj e))
                     = Collaborators.rehydrateDict (VObj e))
      by (destruct Hl as [<- | [<- | []]]; reflexivity).
    simpl option_map. rewrite Hentry. simpl Collaborators.rehydrateDict.
    rewrite !prop_lookup, lookup_map_values.
    destruct (JS.lookup k e); reflexivity.
Qed.

Lemma valid_place (o : obj) (l : place) :
  plainMatcher o ->
  validateMatcher (VObj o) = Returned tt ->
  In l (places (VObj o)) ->
  JS.truthy (read (VObj o) l) = true ->
  isStringMatcher (read (VObj o) l) = true.
Proof.
  intros Ho Hvalid Hin Htruthy.
  unfold validateMatcher, validateRouteMatcherOptions in Hvalid.
  destruct (Lodash.isEmpty (VObj o)); [discriminate |].
  destruct (find _ _) as [bad |] eqn:Hfind in Hvalid; [discriminate |].
  clear Hvalid.
  rewrite getAllStringMatcherFields_places in Hfind.
  pose proof (find_none _ _ Hfind (path_of l) (in_map path_of _ _ Hin))
    as Hcheck.
  unfold invalidStringMatcher in Hcheck.
  destruct (get_place o l Ho Hin) as [Hget Hhas].
  rewrite Hget, Hhas in Hcheck.
  destruct l as [f | d k]; simpl in *.
  - assert (Hown : JS.hasOwn (VObj o) f = true).
    { unfold JS.hasOwn. unfold JS.prop in Htruthy.
      destruct (JS.own (VObj o) f); [reflexivity | discriminate]. }
    rewrite Hown in Hcheck. simpl in Hcheck.
    now apply negb_false_iff in Hcheck.
  - now apply negb_false_iff in Hcheck.
Qed.

(** C5, as the code has it.  For a matcher that passes validation and
    has plain keys, annotating and then rehydrating gives back, at every
    string matcher field (top-level or an entry of [headers] or [query]),
    the value the matcher has there when it is truthy, and nothing when
    it is not (the empty string, in a valid matcher); and it gives back
    [https], [port] and [webSocket] as the matcher has them. *)
Theorem C5_round_trip_plain :
  forall o : obj,
    plainMatcher o ->
    validateMatcher (VObj o) = Returned tt ->
    (forall l, recognized l ->
       read (Collaborators.rehydrate (annotate (VObj o))) l
       = if JS.truthy (read (VObj o) l) then read (VObj o) l
         else VUndefined)
    /\ (forall g, In g noAnnotationRequiredFields ->
          JS.own (Collaborators.rehydrate (annotate (VObj o))) g
          = JS.own (VObj o) g).
Proof.
  intros o Ho Hvalid.
  destruct (annotate_plain o Ho) as (a & -> & Ha & Hread & Hcopy).
  split.
  - intros l Hl. rewrite (read_rehydrate a l Ha Hl), (Hread l Hl).
    destruct (JS.truthy (read (VObj o) l)) eqn:Ht; [| reflexivity].
    apply rehydrateValue_annotation.
    destruct (in_dec place_eq_dec l (places (VObj o))) as [Hin | Hnin].
    + now apply valid_place.
    + rewrite (unvisited_place o l Ho Hl Hnin) in Ht. discriminate.
  - intros g Hg. simpl. rewrite lookup_rehydrate, (Hcopy g Hg).
    destruct (JS.lookup g o) as [v |]; [| reflexivity].
    simpl in Hg. destruct Hg as [<- | [<- | [<- | []]]]; reflexivity.
Qed.

Lemma usersMatcher_plain : plainMatcher usersMatcher.
Proof.
  split.
  - repeat constructor.
  - intros d v Hd Hv _. simpl in Hd.
    destruct Hd as [<- | [<- | []]]; simpl in Hv; [| discriminate].
    injection Hv as <-. eexists. split; [reflexivity |].
    repeat constructor.
Defined.

Lemma C5_round_trip_plain_witness :
  read (Collaborators.rehydrate (annotate (VObj usersMatcher)))
       (Nested "headers" "accept")
  = VStr "application/json"
  /\ JS.own (Collaborators.rehydrate (annotate (VObj usersMatcher))) "port"
     = Some (VArr [VNum 80; VNum 443]).
Proof.
  destruct (C5_round_trip_plain usersMatcher usersMatcher_plain eq_refl)
    as [Hfields Hcopied].
  split.
  - apply (Hfields (Nested "headers" "accept")). simpl. tauto.
  - apply (Hcopied "port"). simpl. tauto.
Defined.

(** C5 as stated fails at [{url: "", https: true}]: the matcher is
    valid and has a [url], and what comes back from annotation and
    rehydration has none. *)
Lemma C5_empty_url_counterexample :
  validateMatcher emptyUrl = Returned tt
  /\ JS.own emptyUrl "url" = Some (VStr "")
  /\ JS.own (Collaborators.rehydrate (annotate emptyUrl)) "url" = None.
Proof. repeat split. Qed.

(** ** Validation of matchers with plain keys *)

Lemma lookup_in_keys (e : obj) (k : string) (v : value) :
  JS.lookup k e = Some v -> In k (map fst e).
Proof.
  induction e as [| [k' v'] e IH]; simpl; [discriminate |].
  destruct (String.eqb_spec k k'); [now left | right; auto].
Qed.

Lemma find_some_exists {A : Type} (P : A -> bool) (l : list A) (x : A) :
  In x l -> P x = true -> exists y, find P l = Some y.
Proof.
  intros Hin HP. destruct (find P l) as [y |] eqn:Hfind; [eauto |].
  rewrite (find_none _ _ Hfind x Hin) in HP. discriminate.
Qed.

Lemma has_word (o : obj) (g : string) :
  Lodash.reIsPlainProp g = true ->
  Lodash.has (VObj o) g
  = match JS.lookup g o with Some _ => true | None => false end.
Proof.
  intros Hg. unfold Lodash.has. now rewrite castPath_word.
Qed.

(** On matchers with plain keys the validator throws exactly on the
    malformed ones. *)
Theorem validate_plain_matcher :
  forall o : obj,
    plainMatcher o ->
    (exists err, validateMatcher (VObj o) = Thrown err) <-> malformed o.
Proof.
  intros o Ho. unfold validateMatcher, validateRouteMatcherOptions.
  rewrite getAllStringMatcherFields_places. split.
  - intros (err & Hthrown).
    destruct (Lodash.isEmpty (VObj o)) eqn:Hempty;
      [now apply malformed_empty |].
    destruct (find _ _) as [p |] eqn:Hfind in Hthrown.
    + apply find_some in Hfind. destruct Hfind as [Hp Hbad].
      apply in_map_iff in Hp. destruct Hp as (l & <- & Hl).
      unfold invalidStringMatcher in Hbad.
      destruct (get_place o l Ho Hl) as [Hget Hhas].
      rewrite Hget, Hhas in Hbad. apply andb_true_iff in Hbad.
      destruct Hbad as [Hpresent Hnot]. apply negb_true_iff in Hnot.
      apply in_places in Hl. destruct l as [f | d k]; simpl in *.
      * unfold JS.hasOwn, JS.prop, JS.own in *.
        destruct (JS.lookup f o) as [v |] eqn:Hv; [| discriminate].
        now apply (malformed_field o f v).
      * destruct Hl as (Hd & Ht & Hk).
        destruct (plainMatcher_dict o d Ho Hd Ht) as (e & He & _).
        rewrite prop_lookup, He in *. simpl in Hk.
        destruct (in_keys_lookup e k Hk) as (v & Hv).
        rewrite prop_lookup, Hv in Hnot.
        now apply (malformed_entry o d e k v).
    + clear Hfind. rewrite !has_word in Hthrown by reflexivity.
      rewrite !prop_lookup in Hthrown.
      destruct (JS.lookup "https" o) as [h |] eqn:Hh.
      * destruct (Lodash.isBoolean h) eqn:Hb;
          [| now apply (malformed_https o h)].
        simpl in Hthrown.
        destruct (JS.lookup "port" o) as [p |] eqn:Hp; [| discriminate].
        destruct (isNumberMatcher p) eqn:Hn; [discriminate |].
        now apply (malformed_port o p).
      * simpl in Hthrown.
        destruct (JS.lookup "port" o) as [p |] eqn:Hp; [| discriminate].
        destruct (isNumberMatcher p) eqn:Hn; [discriminate |].
        now apply (malformed_port o p).
  - intros Hbad.
    destruct (Lodash.isEmpty (VObj o)) eqn:Hempty; [eauto |].
    assert (Hfound :
      forall l, In l (places (VObj o)) ->
                invalidStringMatcher (VObj o) (path_of l) = true ->
                exists err,
                  match find (invalidStringMatcher (VObj o))
                             (map path_of (places (VObj o))) with
                  | Some path =>
                      Thrown ("`" ++ path
                              ++ "` must be a string or a regular expression.")
                  | None =>
                      if Lodash.has (VObj o) "https"
                         && negb (Lodash.isBoolean (JS.prop (VObj o) "https"))
                      then Thrown "`https` must be a boolean."
                      else if Lodash.has (VObj o) "port"
                              && negb (isNumberMatcher
                                         (JS.prop (VObj o) "port"))
                      then Thrown
                             "`port` must be a number or a list of numbers."
                      else Returned tt
                  end = Thrown err).
    { intros l Hl Hinvalid.
      destruct (find_some_exists _ _ _ (in_map path_of _ _ Hl) Hinvalid)
        as (p & ->). eauto. }
    destruct Hbad as [Hcontra | f v Hf Hv Hnot | d e k v Hd He Hv Hnot
                     | h Hh Hb | p Hp Hn].
    + congruence.
    + apply (Hfound (Top f)); [now apply in_places |].
      assert (Hl : In (Top f) (places (VObj o))) by now apply in_places.
      unfold invalidStringMatcher.
      destruct (get_place o (Top f) Ho Hl) as [-> ->]. simpl.
      unfold JS.hasOwn, JS.prop, JS.own. now rewrite Hv, Hnot.
    + assert (Hl : In (Nested d k) (places (VObj o))).
      { apply in_places. rewrite prop_lookup, He. repeat split; auto.
        simpl. now apply (lookup_in_keys e k v). }
      apply (Hfound (Nested d k) Hl).
      unfold invalidStringMatcher.
      destruct (get_place o (Nested d k) Ho Hl) as [-> ->]. simpl.
      rewrite (prop_lookup o d), He, (prop_lookup e k), Hv, Hnot.
      reflexivity.
    + destruct (find _ _); [eauto |].
      rewrite has_word, prop_lookup, Hh, Hb by reflexivity. simpl. eauto.
    + destruct (find _ _); [eauto |].
      rewrite !has_word, !prop_lookup, Hp, Hn by reflexivity. simpl.
      destruct (_ && _); eauto.
Qed.

Lemma validate_plain_matcher_witness :
  malformed [("port", VStr "abc")]
  /\ ~ malformed usersMatcher.
Proof.
  split.
  - apply (validate_plain_matcher [("port", VStr "abc")]).
    + split; [repeat constructor |].
      intros d v [<- | [<- | []]] Hv; discriminate.
    + eexists. reflexivity.
  - intros Hbad.
    apply (validate_plain_matcher usersMatcher usersMatcher_plain) in Hbad.
    destruct Hbad as (err & Herr). discriminate.
Defined.

(** ** Further properties of registration *)

(** [port] must be a number or a list of numbers: ["abc"] is rejected,
    [[80, 443]] and [8080] are accepted. *)
Example port_matchers :
  validateMatcher (VObj [("port", VStr "abc")])
  = Thrown "`port` must be a number or a list of numbers."
  /\ validateMatcher (VObj [("port", VArr [VNum 80; VNum 443])])
     = Returned tt
  /\ validateMatcher (VObj [("port", VNum 8080)]) = Returned tt
  /\ validateMatcher (VObj [("port", VArr [VNum 80; VStr "443"])])
     = Thrown "`port` must be a number or a list of numbers.".
Proof. repeat split. Qed.

(** A function is registered as an interceptor and an omitted handler as
    a passthrough, neither with a static response; a number, a boolean
    or [null] is refused as the handler, by name. *)
Example handler_kinds :
  forall validate,
    (forall s, resolveHandler validate (VFun s) = Ok (VFun s, None))
    /\ resolveHandler validate VUndefined = Ok (VUndefined, None)
    /\ (forall n, resolveHandler validate (VNum n)
                  = Err (invalid_handler (VNum n)))
    /\ (forall b, resolveHandler validate (VBool b)
                  = Err (invalid_handler (VBool b)))
    /\ resolveHandler validate VNull = Err (invalid_handler VNull).
Proof. intros validate. repeat split. Qed.

Lemma find_put_route (id : string) (r : Route) (rs : list (string * Route)) :
  find_route id (put_route id r rs) = Some r.
Proof.
  induction rs as [| [k r'] rs IH]; simpl.
  - now rewrite String.eqb_refl.
  - destruct (String.eqb_spec k id) as [-> | Hne]; simpl.
    + now rewrite String.eqb_refl.
    + destruct (String.eqb_spec k id); [contradiction | exact IH].
Qed.

(** A route that is registered starts with no hit and no request, and
    its log shows ["*"] for a method or a URL the matcher leaves out. *)
Theorem registered_route :
  forall fields dicts validate backend env matcher handler st st',
    addRoute fields dicts validate backend env matcher handler st
    = (Ok tt, st') ->
    exists route,
      find_route (fst (getUniqueId (clock env) st)) (routes st')
      = Some route
      /\ route_hitCount route = 0%Z
      /\ route_requests route = []
      /\ route_options route = matcher
      /\ log_numResponses (route_log route) = 0%Z
      /\ (JS.truthy (JS.prop matcher "method") = false ->
          log_method (route_log route) = VStr "*")
      /\ (JS.truthy (JS.prop matcher "url") = false ->
          log_url (route_log route) = VStr "*").
Proof.
  intros fields dicts validate backend env matcher handler st st' Hadd.
  unfold addRoute in Hadd. rewrite getUniqueId_eq in Hadd.
  destruct (resolveHandler validate handler) as [[h sr] | e];
    [| discriminate].
  injection Hadd as <-. simpl routes.
  eexists. split; [apply find_put_route |].
  simpl. unfold logField. repeat split; intros ->; reflexivity.
Qed.

Lemma registered_route_witness :
  exists route,
    find_route "1600000000000-1"
      (routes (snd (register (enabled 1600000000000) (VStr "/users")
                             VUndefined VUndefined fresh)))
    = Some route
    /\ route_hitCount route = 0%Z
    /\ log_method (route_log route) = VStr "*".
Proof.
  destruct (registered_route
              Collaborators.STRING_MATCHER_FIELDS
              Collaborators.DICT_STRING_MATCHER_FIELDS
              Collaborators.validateStaticResponse
              Collaborators.getBackendStaticResponse
              (enabled 1600000000000) (VObj [("url", VStr "/users")])
              VUndefined fresh
              (snd (register (enabled 1600000000000) (VStr "/users")
                             VUndefined VUndefined fresh)))
    as (route & Hfind & Hhits & _ & _ & _ & Hmethod & _).
  - reflexivity.
  - exists route. repeat split; auto.
Defined.


(** ** The feature gate and arguments that match nothing *)

Lemma resolveHandler_error validate (handler : value) (e : error) :
  resolveHandler validate handler = Err e ->
  (exists err sr, e = invalid_static_response err sr)
  \/ e = invalid_handler handler.
Proof.
  unfold resolveHandler.
  destruct handler; simpl; try discriminate;
    try (intros H; injection H as <-; now right);
    match goal with
    | |- context [validate ?x] => destruct (validate x)
    end; try discriminate; intros H; injection H as <-; left; eauto.
Qed.

(** [route2] ends with [route2_needs_experimental] exactly when
    [experimentalNetworkMocking] is off, and then no argument has been
    looked at and nothing has changed, the identifier counter
    included. *)
Theorem feature_gate :
  forall fields dicts validate backend env matcher handler arg2 st,
    (fst (route2 fields dicts validate backend env matcher handler arg2 st)
     = Err route2_needs_experimental
     <-> experimentalNetworkMocking env = false)
    /\ (experimentalNetworkMocking env = false ->
        snd (route2 fields dicts validate backend env matcher handler arg2 st)
        = st).
Proof.
  intros fields dicts validate backend env matcher handler arg2 st.
  pose proof (route2_ending fields dicts validate backend
                env matcher handler arg2 st) as E.
  split; [split |].
  - intros Hres. rewrite Hres in E.
    inversion E as [Hg Hr Hs | err Hg Hv Hr Hs | e Hg Hv Hh Hr Hs
                   | h sr st' Hg Hv Hh Ha Hr Hs]; [assumption |].
    subst e. apply resolveHandler_error in Hh.
    destruct Hh as [(err & sr & Hh) | Hh]; discriminate.
  - intros Hgate. unfold route2. now rewrite Hgate.
  - intros Hgate. unfold route2. now rewrite Hgate.
Qed.

(** A first argument that is neither a string nor a pattern and that
    lodash finds empty ([undefined], [null], a boolean, a number, a
    function, [[]], [{}]) is refused as a matcher without keys, whatever
    the other arguments, and nothing changes. *)
Theorem empty_argument_rejected :
  forall fields dicts validate backend env matcher handler arg2 st,
    experimentalNetworkMocking env = true ->
    isStringMatcher matcher = false ->
    Lodash.isEmpty matcher = true ->
    route2 fields dicts validate backend env matcher handler arg2 st
    = (Err (invalid_route_matcher
              ("The RouteMatcher does not contain any keys. "
               ++ "You must pass something to match on.") matcher), st).
Proof.
  intros fields dicts validate backend env matcher handler arg2 st
         Hgate Hmatcher Hempty.
  unfold route2, getMatcherOptions. rewrite Hgate, Hmatcher.
  unfold isStringMatcher in Hmatcher. apply orb_false_iff in Hmatcher.
  destruct Hmatcher as [_ ->]. simpl.
  unfold validateRouteMatcherOptions. now rewrite Hempty.
Qed.

Lemma empty_argument_rejected_witness :
  register (enabled 0) (VNum 42) (VStr "hello") (VStr "world") fresh
  = (Err (invalid_route_matcher
            ("The RouteMatcher does not contain any keys. "
             ++ "You must pass something to match on.") (VNum 42)), fresh)
  /\ register (enabled 0) VUndefined VUndefined VUndefined fresh
     = (Err (invalid_route_matcher
               ("The RouteMatcher does not contain any keys. "
                ++ "You must pass something to match on.") VUndefined),
        fresh).
Proof.
  split.
  - apply (empty_argument_rejected
             Collaborators.STRING_MATCHER_FIELDS
             Collaborators.DICT_STRING_MATCHER_FIELDS
             Collaborators.validateStaticResponse
             Collaborators.getBackendStaticResponse
             (enabled 0) (VNum 42) (VStr "hello") (VStr "world") fresh);
      reflexivity.
  - apply (empty_argument_rejected
             Collaborators.STRING_MATCHER_FIELDS
             Collaborators.DICT_STRING_MATCHER_FIELDS
             Collaborators.validateStaticResponse
             Collaborators.getBackendStaticResponse
             (enabled 0) VUndefined VUndefined VUndefined fresh);
      reflexivity.
Defined.

(** ** The route log *)

(** The response shown in the route log: the body of the static
    response when that is truthy and ["<empty body>"] when it is not;
    without a static response, ["< callback function >"] for a stubbed
    route and ["< passthrough >"] otherwise.  It is never falsy, so the
    texts of the last fallback of [getNewRouteLog] are never shown for
    the lack of a response. *)
Theorem route_log_response :
  forall matcher isStubbed alias staticResponse,
    log_response (getNewRouteLog matcher isStubbed alias staticResponse)
    = match staticResponse with
      | Some sr =>
          if JS.truthy (JS.prop sr "body") then JS.prop sr "body"
          else VStr "<empty body>"
      | None =>
          VStr (if isStubbed then "< callback function >"
                else "< passthrough >")
      end
    /\ JS.truthy
         (log_response (getNewRouteLog matcher isStubbed alias staticResponse))
       = true.
Proof.
  intros matcher isStubbed alias [sr |]; simpl.
  - destruct (JS.truthy (JS.prop sr "body")) eqn:Hbody; simpl.
    + rewrite Hbody. simpl. auto.
    + auto.
  - destruct isStubbed; simpl; auto.
Qed.

(** ** Classification of the handler, continued *)

Lemma resolveHandler_stored validate (h h' : value) (sr : option value) :
  resolveHandler validate h = Ok (h', sr) ->
  JS.truthy h' = JS.truthy h
  /\ (sr = None <-> isHttpRequestInterceptor h' = true \/ h' = VUndefined).
Proof.
  unfold resolveHandler.
  destruct h;
    cbn [isHttpRequestInterceptor Lodash.isFunction Lodash.isUndefined
         Lodash.isString Lodash.isObjectLike];
    try discriminate;
    try match goal with
        | |- context [if ?c then jsonResponse _ else _] => destruct c
        end;
    try match goal with
        | |- context [validate ?x] => destruct (validate x); [| discriminate]
        end;
    intros H; injection H as <- <-; (split; [reflexivity |]);
    (split; [try discriminate; auto
            | intros [Hf | Hu]; try discriminate; auto]).
Qed.

(** A route is logged as stubbed exactly when its handler is truthy,
    that is, unless the handler is left out or is the empty string; the
    empty string is nevertheless sent to the backend as a static
    response, with an empty body, and logged with the response
    ["<empty body>"]. *)
Theorem stubbed_flag :
  forall fields dicts validate backend env matcher handler st st',
    addRoute fields dicts validate backend env matcher handler st
    = (Ok tt, st') ->
    exists route frame,
      find_route (fst (getUniqueId (clock env) st)) (routes st')
      = Some route
      /\ emitted st' = (emitted st ++ [("route:added", frame)])%list
      /\ log_isStubbed (route_log route) = JS.truthy handler
      /\ (log_isStubbed (route_log route) = false ->
          handler = VUndefined \/ handler = VStr "")
      /\ (handler = VStr "" ->
          frame_staticResponse frame
          = Some (backend (VObj [("body", VStr "")]))
          /\ log_response (route_log route) = VStr "<empty body>").
Proof.
  intros fields dicts validate backend env matcher handler st st' Hadd.
  destruct (resolveHandler validate handler) as [[h sr] | e] eqn:Hres.
  2: { rewrite (addRoute_thrown fields dicts validate backend
                  env matcher handler st e Hres) in Hadd. discriminate. }
  destruct (addRoute_returned fields dicts validate backend
              env matcher handler st h sr Hres)
    as (route & frame & Hcall & _ & _ & Hsr & _ & _ & Hlog).
  rewrite Hcall in Hadd. injection Hadd as <-.
  destruct (resolveHandler_stored validate handler h sr Hres) as [Htruthy _].
  exists route, frame. simpl routes. simpl emitted.
  split; [apply find_put_route |]. split; [reflexivity |].
  rewrite Hlog. simpl log_isStubbed. split; [exact Htruthy |]. split.
  - rewrite Htruthy. intros Hfalsy.
    destruct handler; try discriminate; [now left | right].
    simpl in Hfalsy. apply negb_false_iff, String.eqb_eq in Hfalsy.
    now subst.
  - intros ->. injection Hres as <- <-. rewrite Hsr. split; reflexivity.
Qed.

Lemma stubbed_flag_witness :
  exists route frame,
    find_route "1600000000000-1"
      (routes (snd (register (enabled 1600000000000) (VStr "/users")
                             (VStr "") VUndefined fresh)))
    = Some route
    /\ log_isStubbed (route_log route) = false
    /\ frame_staticResponse frame
       = Some (Collaborators.getBackendStaticResponse
                 (VObj [("body", VStr "")])).
Proof.
  destruct (stubbed_flag
              Collaborators.STRING_MATCHER_FIELDS
              Collaborators.DICT_STRING_MATCHER_FIELDS
              Collaborators.validateStaticResponse
              Collaborators.getBackendStaticResponse
              (enabled 1600000000000) (VObj [("url", VStr "/users")])
              (VStr "") fresh
              (snd (register (enabled 1600000000000) (VStr "/users")
                             (VStr "") VUndefined fresh)))
    as (route & frame & Hfind & _ & Hflag & _ & Hempty).
  - reflexivity.
  - exists route, frame. destruct (Hempty eq_refl) as [Hsr _].
    repeat split; assumption.
Defined.

Lemma string_of_nat_digit (i : nat) :
  match JS.string_of_nat i with
  | EmptyString => True
  | String c _ => Lodash.is_digit c = true
  end.
Proof.
  unfold JS.string_of_nat. destruct (Nat.to_uint i); simpl; auto.
Qed.

Lemma index_not_static_key (i : nat) :
  ~ In (JS.string_of_nat i) STATIC_RESPONSE_KEYS.
Proof.
  pose proof (string_of_nat_digit i) as Hdigit. intros Hin.
  simpl in Hin.
  repeat (destruct Hin as [Hin | Hin];
          [rewrite <- Hin in Hdigit; discriminate |]).
  contradiction.
Qed.

(** A list given as the handler is served as JSON: when it has an
    element, the static response is the one whose body is its JSON text
    and whose [content-type] is [application/json]; the empty list goes
    to the static response validator as it is. *)
Theorem array_handler :
  forall validate (l : list value),
    (l <> [] ->
     resolveHandler validate (VArr l)
     = validated validate (jsonResponse (VArr l))
     /\ JS.prop (jsonResponse (VArr l)) "body" = JS.JSON_stringify (VArr l)
     /\ Lodash.isString (JS.JSON_stringify (VArr l)) = true)
    /\ resolveHandler validate (VArr []) = validated validate (VArr []).
Proof.
  intros validate l. split; [| reflexivity].
  intros Hl. split; [| split; reflexivity].
  unfold resolveHandler.
  cbn [isHttpRequestInterceptor Lodash.isFunction Lodash.isUndefined
       Lodash.isString Lodash.isObjectLike].
  unfold Lodash.intersection. rewrite intersection_from_nil.
  - destruct l; [contradiction | reflexivity].
  - intros k Hk. simpl in Hk. apply in_map_iff in Hk.
    destruct Hk as (i & <- & _). apply index_not_static_key.
Qed.

Lemma array_handler_witness :
  resolveHandler Collaborators.validateStaticResponse (VArr [VObj users])
  = Ok (jsonResponse (VArr [VObj users]),
        Some (jsonResponse (VArr [VObj users]))).
Proof.
  destruct (array_handler Collaborators.validateStaticResponse [VObj users])
    as [Hjson _].
  destruct Hjson as (-> & _); [discriminate | reflexivity].
Defined.

(** [invalid_handler] is raised for [null], a boolean or a number, with
    the handler as its argument, and for nothing else. *)
Theorem invalid_handler_iff :
  forall validate (h h' : value),
    resolveHandler validate h = Err (invalid_handler h')
    <-> h' = h
        /\ (h = VNull \/ (exists b, h = VBool b) \/ (exists n, h = VNum n)).
Proof.
  intros validate h h'. split.
  - intros Hres.
    assert (Hh : h' = h).
    { destruct (resolveHandler_error validate h _ Hres)
        as [(err & sr & He) | He]; [discriminate | now injection He]. }
    split; [exact Hh |]. subst h'.
    destruct h; eauto; exfalso; revert Hres; unfold resolveHandler;
      cbn [isHttpRequestInterceptor Lodash.isFunction Lodash.isUndefined
           Lodash.isString Lodash.isObjectLike];
      try discriminate;
      match goal with
      | |- context [validate ?x] => destruct (validate x); discriminate
      end.
  - intros [-> [-> | [(b & ->) | (n & ->)]]]; reflexivity.
Qed.

(** ** The route table and the frames *)

Lemma find_route_none (id : string) (rs : list (string * Route)) :
  ~ In id (map fst rs) -> find_route id rs = None.
Proof.
  induction rs as [| [k r] rs IH]; simpl; [reflexivity |].
  intros Hnin. destruct (String.eqb_spec k id) as [-> | Hne].
  - elim Hnin. now left.
  - apply IH. intros Hin. apply Hnin. now right.
Qed.

Lemma put_route_fresh (id : string) (r : Route) (rs : list (string * Route)) :
  ~ In id (map fst rs) -> put_route id r rs = (rs ++ [(id, r)])%list.
Proof.
  induction rs as [| [k r'] rs IH]; simpl; [reflexivity |].
  intros Hnin. destruct (String.eqb_spec k id) as [-> | Hne].
  - elim Hnin. now left.
  - rewrite IH; [reflexivity |]. intros Hin. apply Hnin. now right.
Qed.

Lemma recorded_keys (fields dicts : list string)
  (rs : list (string * Route)) (es : list (string * AddRoute)) :
  Forall2 (recorded fields dicts) rs es ->
  map fst rs = map (fun e => frame_handlerId (snd e)) es.
Proof.
  induction 1 as [| entry event rs es (_ & Hid & _) _ IH]; simpl.
  - reflexivity.
  - now rewrite Hid, IH.
Qed.

Section Consistency.

Variable fields dicts : list string.
Variable validate : value -> outcome unit.
Variable backend : value -> value.

Lemma consistent_fresh : consistent fields dicts fresh.
Proof.
  split; [apply numbered_fresh |]. split; [constructor | reflexivity].
Qed.

Lemma consistent_bumped (st : State) :
  consistent fields dicts st -> consistent fields dicts (bumped st).
Proof.
  intros (Hnum & Hrec & Hlogs).
  split; [now apply numbered_bumped |]. split; assumption.
Qed.

(** One step of a process either leaves the route table, the log and
    the events as they are or adds one entry to each, under an
    identifier the table did not have. *)
Lemma consistent_step (st : State) (a : action) :
  consistent fields dicts st ->
  consistent fields dicts (step fields dicts validate backend st a)
  /\ ((routes (step fields dicts validate backend st a) = routes st
       /\ emitted (step fields dicts validate backend st a) = emitted st
       /\ logs (step fields dicts validate backend st a) = logs st)
      \/ exists id route frame,
           find_route id (routes st) = None
           /\ routes (step fields dicts validate backend st a)
              = (routes st ++ [(id, route)])%list
           /\ emitted (step fields dicts validate backend st a)
              = (emitted st ++ [("route:added", frame)])%list
           /\ frame_handlerId frame = id
           /\ logs (step fields dicts validate backend st a)
              = (logs st ++ [route_log route])%list).
Proof.
  intros Hst.
  pose proof (numbered_step fields dicts validate backend st a
                (proj1 Hst)) as Hnum'.
  destruct a as [env matcher handler arg2 |]; cbn [step] in *.
  2: { split; [now apply (consistent_bumped st) | left; auto]. }
  pose proof (route2_ending fields dicts validate backend
                env matcher handler arg2 st) as E.
  destruct (route2 fields dicts validate backend env matcher handler arg2 st)
    as [r st'] eqn:Hcall.
  cbn [fst snd] in *.
  inversion E as [Hg Hr Hs | err Hg Hv Hr Hs | e Hg Hv Hh Hr Hs
                 | h sr st'' Hg Hv Hh Ha Hr Hs]; subst.
  - split; [assumption | left; auto].
  - split; [assumption | left; auto].
  - split; [now apply consistent_bumped | left; auto].
  - destruct (addRoute_returned fields dicts validate backend env
                (fst (getMatcherOptions matcher handler arg2)) _ st
                _ _ Hh)
      as (route & frame & Hadd & Hid & Hmatcher & Hsr & Hhandler
          & Hoptions & Hlog).
    rewrite Hadd in Ha. injection Ha as <-.
    destruct Hst as (Hnum & Hrec & Hlogs).
    set (id := fst (getUniqueId (clock env) st)) in *.
    assert (Hnew : ~ In id (map fst (routes st))).
    { rewrite (recorded_keys _ _ _ _ Hrec). intros Hold.
      destruct Hnum as [_ Hall]. rewrite Forall_forall in Hall.
      destruct (Hall _ Hold) as (now & c & Hc & Hle).
      unfold id in Hc. rewrite getUniqueId_handlerIdOf in Hc. simpl in Hc.
      apply handlerIdOf_inj in Hc. lia. }
    cbn [routes emitted logs].
    repeat match goal with
           | |- context [put_route ?x route (routes st)] =>
               progress change x with id
           end.
    match type of Hnum' with
    | context [put_route ?x route (routes st)] => change x with id in Hnum'
    end.
    rewrite (put_route_fresh id route (routes st) Hnew).
    split.
    + rewrite (put_route_fresh id route (routes st) Hnew) in Hnum'.
      split; [exact Hnum' |]. cbn [routes emitted logs]. split.
      * apply Forall2_app; [assumption |].
        constructor; [| constructor].
        unfold recorded. simpl.
        rewrite Hid, Hmatcher, Hoptions, Hsr, Hhandler.
        repeat split; try reflexivity.
        -- intros Hnone.
           apply (resolveHandler_stored validate _ h sr Hh).
           destruct sr; [discriminate | reflexivity].
        -- intros Hcase.
           apply (resolveHandler_stored validate _ h sr Hh) in Hcase.
           now subst sr.
      * rewrite map_app, Hlogs. reflexivity.
    + right. exists id, route, frame.
      split; [now apply find_route_none |]. auto.
Qed.

Lemma consistent_run (actions : list action) (st : State) :
  consistent fields dicts st ->
  consistent fields dicts (run fields dicts validate backend actions st).
Proof.
  revert st. induction actions as [| a actions IH]; intros st Hst; simpl.
  - assumption.
  - apply IH. now apply consistent_step.
Qed.

(** In every process, the route table and the events sent to the
    backend correspond entry by entry, in the order of registration:
    the event is [route:added], its frame carries the identifier the
    route is stored under and the annotated form of the route's
    options, and it carries a static response unless the stored handler
    is a function or is left out; and the logs of the routes are the
    command log. *)
Theorem routes_match_frames (actions : list action) :
  Forall2 (recorded fields dicts)
    (routes (run fields dicts validate backend actions fresh))
    (emitted (run fields dicts validate backend actions fresh))
  /\ map (fun entry => route_log (snd entry))
         (routes (run fields dicts validate backend actions fresh))
     = logs (run fields dicts validate backend actions fresh).
Proof.
  destruct (consistent_run actions fresh consistent_fresh) as (_ & H).
  exact H.
Qed.

(** In every process, a further step never replaces or removes a route:
    it leaves the route table, the events and the log as they are, or
    it adds one route at the end of the table under an identifier that
    was not in use, together with one [route:added] event for that
    identifier and one log. *)
Theorem registration_appends (actions : list action) (a : action) :
  (routes (run fields dicts validate backend (actions ++ [a]) fresh)
   = routes (run fields dicts validate backend actions fresh)
   /\ emitted (run fields dicts validate backend (actions ++ [a]) fresh)
      = emitted (run fields dicts validate backend actions fresh)
   /\ logs (run fields dicts validate backend (actions ++ [a]) fresh)
      = logs (run fields dicts validate backend actions fresh))
  \/ exists id route frame,
       find_route id (routes (run fields dicts validate backend actions fresh))
       = None
       /\ routes (run fields dicts validate backend (actions ++ [a]) fresh)
          = (routes (run fields dicts validate backend actions fresh)
             ++ [(id, route)])%list
       /\ emitted (run fields dicts validate backend (actions ++ [a]) fresh)
          = (emitted (run fields dicts validate backend actions fresh)
             ++ [("route:added", frame)])%list
       /\ frame_handlerId frame = id
       /\ logs (run fields dicts validate backend (actions ++ [a]) fresh)
          = (logs (run fields dicts validate backend actions fresh)
             ++ [route_log route])%list.
Proof.
  unfold run. rewrite fold_left_app. simpl.
  apply consistent_step. apply (consistent_run actions fresh consistent_fresh).
Qed.

(** C8.  In every process, with whatever clock readings (equal ones
    included) and whatever other uses of lodash's counter in between:
    the handler identifiers sent to the backend so far are pairwise
    distinct; and a registration that succeeds advances the counter by
    one, sends exactly one [route:added] frame, whose handler identifier
    is built from the clock reading and the new counter value, stores
    the route under that identifier, and that identifier is none of the
    identifiers sent before and no key of the route table before, so
    that the identifiers sent are again pairwise distinct. *)
Theorem C8_handler_ids_distinct (actions : list action) (env : Ambient)
  (matcher handler arg2 : value) :
  NoDup (emittedIds (run fields dicts validate backend actions fresh))
  /\ (fst (route2 fields dicts validate backend env matcher handler arg2
             (run fields dicts validate backend actions fresh)) = Ok tt ->
      exists route frame,
        idCounter
          (snd (route2 fields dicts validate backend env matcher handler
                  arg2 (run fields dicts validate backend actions fresh)))
        = S (idCounter (run fields dicts validate backend actions fresh))
        /\ frame_handlerId frame
           = handlerIdOf (clock env)
               (S (idCounter
                     (run fields dicts validate backend actions fresh)))
        /\ emitted
             (snd (route2 fields dicts validate backend env matcher handler
                     arg2 (run fields dicts validate backend actions fresh)))
           = (emitted (run fields dicts validate backend actions fresh)
              ++ [("route:added", frame)])%list
        /\ find_route (frame_handlerId frame)
             (routes
                (snd (route2 fields dicts validate backend env matcher
                        handler arg2
                        (run fields dicts validate backend actions fresh))))
           = Some route
        /\ ~ In (frame_handlerId frame)
               (emittedIds (run fields dicts validate backend actions fresh))
        /\ find_route (frame_handlerId frame)
             (routes (run fields dicts validate backend actions fresh))
           = None
        /\ NoDup
             (emittedIds
                (snd (route2 fields dicts validate backend env matcher
                        handler arg2
                        (run fields dicts validate backend actions fresh))))).
Proof.
  pose proof (consistent_run actions fresh consistent_fresh) as Hst.
  set (st := run fields dicts validate backend actions fresh) in *.
  split; [apply Hst |]. intros Hok.
  pose proof (numbered_step fields dicts validate backend st
                (Register env matcher handler arg2) (proj1 Hst)) as Hnum'.
  cbn [step] in Hnum'.
  pose proof (route2_ending fields dicts validate backend
                env matcher handler arg2 st) as E.
  rewrite Hok in E.
  inversion E as [| | | h sr st' Hg Hv Hh Ha Hr Hs].
  destruct (addRoute_returned fields dicts validate backend env
              (fst (getMatcherOptions matcher handler arg2)) _ st _ _ Hh)
    as (route & frame & Hadd & Hid & _).
  rewrite Hadd in Ha. injection Ha as Ha. rewrite <- Ha in Hnum' |- *.
  rewrite getUniqueId_handlerIdOf in Hid. cbn [fst] in Hid.
  assert (Hnew : ~ In (frame_handlerId frame) (emittedIds st)).
  { rewrite Hid. intros Hold.
    destruct Hst as ([_ Hall] & _). rewrite Forall_forall in Hall.
    destruct (Hall _ Hold) as (now & c & Hc & Hle).
    apply handlerIdOf_inj in Hc. lia. }
  exists route, frame. cbn [idCounter emitted routes].
  split; [reflexivity |]. split; [exact Hid |]. split; [reflexivity |].
  split.
  { rewrite Hid. exact (find_put_route _ _ _). }
  split; [exact Hnew |]. split; [| apply Hnum'].
  apply find_route_none.
  destruct Hst as (_ & Hrec & _).
  rewrite (recorded_keys _ _ _ _ Hrec). exact Hnew.
Qed.

End Consistency.

Lemma C8_handler_ids_distinct_witness :
  exists route frame,
    frame_handlerId frame = "1600000000000-2"
    /\ find_route "1600000000000-2"
         (routes
            (snd (register (enabled 1600000000000) (VStr "/users")
                    VUndefined VUndefined
                    (run Collaborators.STRING_MATCHER_FIELDS
                         Collaborators.DICT_STRING_MATCHER_FIELDS
                         Collaborators.validateStaticResponse
                         Collaborators.getBackendStaticResponse
                         [Register (enabled 1600000000000) (VStr "/users")
                                   VUndefined VUndefined] fresh))))
       = Some route
    /\ ~ In "1600000000000-2" ["1600000000000-1"].
Proof.
  destruct (C8_handler_ids_distinct
              Collaborators.STRING_MATCHER_FIELDS
              Collaborators.DICT_STRING_MATCHER_FIELDS
              Collaborators.validateStaticResponse
              Collaborators.getBackendStaticResponse
              [Register (enabled 1600000000000) (VStr "/users")
                        VUndefined VUndefined]
              (enabled 1600000000000) (VStr "/users") VUndefined VUndefined)
    as [_ Hsuccess].
  destruct (Hsuccess eq_refl)
    as (route & frame & _ & Hid & _ & Hfind & Hnew & _).
  exists route, frame. rewrite Hid in Hfind.
  split; [exact Hid |]. split; [exact Hfind |].
  rewrite Hid in Hnew. exact Hnew.
Defined.

(** ** What the annotated matcher holds *)

Lemma set_place_eq (r : obj) (l : place) (x : value) :
  shaped r -> recognized l -> plainPlace l ->
  Lodash.set (VObj r) (path_of l) x
  = VObj (match l with
          | Top f => JS.assign r f x
          | Nested d k => JS.assign r d (VObj (JS.assign (child r d) k x))
          end).
Proof.
  intros Hr Hl Hplain. destruct l as [f | d k]; simpl in Hl, Hplain.
  - unfold Lodash.set. simpl JS.isObject. cbv iota.
    destruct Hl as [<- | [<- | []]]; reflexivity.
  - destruct Hplain as (Hfree & Hindex & Hsafe).
    pose proof (pathfree_dotfree k Hfree) as Hk.
    pose proof (pathfree_bracketfree k Hfree) as Hkb.
    assert (Hd : dotfree d = true /\ bracketfree d = true
                 /\ Lodash.unsafe_key d = false)
      by (destruct Hl as [<- | [<- | []]]; repeat split; reflexivity).
    destruct Hd as (Hd & Hdb & Hdsafe).
    unfold Lodash.set. simpl JS.isObject. cbv iota.
    rewrite castPath_split_dot.
    2: { now apply bracketfree_app_dot. }
    2: { right. unfold JS.hasOwn, JS.own.
         rewrite lookup_none_dotted;
           [reflexivity | apply Hr | apply dotfree_app_dot]. }
    unfold path_of. rewrite split_dot_app, split_dot_dotfree by assumption.
    simpl Lodash.setPath. rewrite Hdsafe, Hsafe, Hindex.
    rewrite (member_tableName (VObj r) d (or_intror Hl)).
    unfold child, JS.prop, JS.own.
    destruct Hr as [_ Hdict].
    destruct (Hdict d Hl) as [-> | (e & ->)]; reflexivity.
Qed.

(** A write of the annotator at one place leaves what the other places
    hold. *)
Lemma set_place_held (r : obj) (l l' : place) (x : value) :
  shaped r -> recognized l -> plainPlace l -> recognized l' -> l' <> l ->
  held (Lodash.set (VObj r) (path_of l) x) l' = held (VObj r) l'.
Proof.
  intros Hr Hl Hplain Hl' Hne. rewrite set_place_eq by assumption.
  assert (Hnames : forall f d,
            In f Collaborators.STRING_MATCHER_FIELDS ->
            In d Collaborators.DICT_STRING_MATCHER_FIELDS -> f <> d).
  { intros f d Hf Hd ->. simpl in Hf, Hd.
    destruct Hf as [<- | [<- | []]]; destruct Hd as [H | [H | []]];
      discriminate. }
  destruct l as [f | d k], l' as [f' | d' k']; simpl in *.
  - apply lookup_assign_other. congruence.
  - rewrite prop_assign_other; [reflexivity |].
    intros ->. now apply (Hnames f f).
  - apply lookup_assign_other. intros ->. now apply (Hnames d d).
  - destruct (string_dec d' d) as [-> | Hdd].
    + rewrite prop_assign_same. simpl.
      rewrite lookup_assign_other by congruence.
      unfold child, JS.prop, JS.own. destruct Hr as [_ Hdict].
      destruct (Hdict d Hl) as [-> | (e & ->)]; reflexivity.
    + now rewrite prop_assign_other.
Qed.

Lemma annotate_fold_held (options : value) (l : place) (L : list place) :
  Forall (fun l0 => recognized l0 /\ plainPlace l0) L ->
  recognized l ->
  (In l L -> JS.truthy (Lodash.get options (path_of l)) = false) ->
  forall r, shaped r -> held (VObj r) l = None ->
  exists r',
    fold_left (annotateField options) (map path_of L) (VObj r) = VObj r'
    /\ shaped r' /\ held (VObj r') l = None.
Proof.
  intros HL Hl. induction HL as [| l0 L [Hrec0 Hplain0] HL IH];
    intros Hfalsy r Hr Hnone; simpl.
  - exists r. auto.
  - assert (IH' : In l L ->
                  JS.truthy (Lodash.get options (path_of l)) = false)
      by (intros Hin; apply Hfalsy; now right).
    unfold annotateField at 2.
    destruct (JS.truthy (Lodash.get options (path_of l0))) eqn:Htruthy.
    + destruct (set_place r l0 (annotation (Lodash.get options (path_of l0)))
                  Hr Hrec0 Hplain0) as (r1 & Hset & Hr1 & _).
      assert (Hne : l <> l0).
      { intros ->. rewrite Hfalsy in Htruthy; [discriminate | now left]. }
      pose proof (set_place_held r l0 l
                    (annotation (Lodash.get options (path_of l0)))
                    Hr Hrec0 Hplain0 Hl Hne) as Hheld.
      rewrite Hset in *. apply (IH IH' r1 Hr1). congruence.
    + now apply (IH IH').
Qed.

(** The annotated form of a plain matcher holds nothing at a place
    where the matcher has nothing truthy. *)
Lemma annotate_held (o : obj) (l : place) :
  plainMatcher o -> recognized l ->
  JS.truthy (read (VObj o) l) = false ->
  held (annotate (VObj o)) l = None.
Proof.
  intros Ho Hl Hfalsy. unfold annotate, annotateMatcherOptionsTypes.
  rewrite getAllStringMatcherFields_places.
  destruct (annotate_fold_held (VObj o) l (places (VObj o))
              (places_plain o Ho) Hl) with (r := @nil (string * value))
    as (r & -> & Hr & Hnone).
  { intros Hin. destruct (get_place o l Ho Hin) as [-> _]. exact Hfalsy. }
  { split; [constructor | auto]. }
  { destruct l; reflexivity. }
  destruct (pick_lookup (VObj o)) as (s & -> & Hkeys & _).
  unfold Lodash.extend. simpl Lodash.keys.
  assert (Hother : forall g, tableName g ->
            forall a, fold_left
                        (fun o k => Lodash.assignValue o k (JS.prop (VObj s) k))
                        (map fst s) (VObj r) = VObj a ->
                      JS.lookup g a = JS.lookup g r).
  { intros g Hg a Ha.
    destruct (extend_lookup (map fst s) (VObj s) g r) as (a' & Ha' & Hlook & _).
    rewrite Ha in Ha'. injection Ha' as <-. rewrite Hlook.
    destruct (Lodash.mem g (map fst s)) eqn:Hmem; [| reflexivity].
    apply mem_true_iff, Hkeys in Hmem. exfalso.
    destruct Hg as [Hg | Hg]; simpl in Hg, Hmem;
      destruct Hg as [<- | [<- | []]];
      destruct Hmem as [H | [H | [H | []]]]; discriminate. }
  destruct (extend_lookup (map fst s) (VObj s) "" r) as (a & Ha & _).
  rewrite Ha. destruct l as [f | d k]; simpl in *.
  - rewrite (Hother f (or_introl Hl) a Ha). exact Hnone.
  - unfold JS.prop, JS.own in *.
    rewrite (Hother d (or_intror Hl) a Ha). exact Hnone.
Qed.

(** ** The annotated form of a matcher with plain keys *)

Lemma annotate_other (o : obj) (g : string) :
  plainMatcher o -> ~ tableName g -> ~ In g noAnnotationRequiredFields ->
  JS.own (annotate (VObj o)) g = None.
Proof.
  intros Ho Htable Hcopied. unfold annotate, annotateMatcherOptionsTypes.
  rewrite getAllStringMatcherFields_places.
  destruct (annotate_fold_places (VObj o) (places (VObj o))
              (places_plain o Ho) [])
    as (r & -> & _ & _ & _ & Hrest).
  { split; [constructor | auto]. }
  destruct (pick_lookup (VObj o)) as (s & -> & Hkeys & _).
  unfold Lodash.extend. simpl Lodash.keys.
  destruct (extend_lookup (map fst s) (VObj s) g r) as (a & -> & Hg & _).
  simpl JS.own. rewrite Hg.
  destruct (Lodash.mem g (map fst s)) eqn:Hmem.
  - apply mem_true_iff in Hmem. elim Hcopied. now apply Hkeys.
  - now rewrite Hrest.
Qed.

(** What the backend receives for a valid matcher with plain keys.  At
    every string matcher field, top-level or an entry of [headers] or
    [query], the matcher holds a string, a pattern or nothing, and the
    annotated matcher holds [{type: "glob", value}] for a string that is
    not empty, [{type: "regex", value}] with the pattern's text for a
    pattern, and nothing otherwise; [https], [port] and [webSocket] are
    as in the matcher; and it has no other field: a field of the matcher
    outside the tables is not passed on. *)
Theorem annotated_matcher :
  forall o : obj,
    plainMatcher o ->
    validateMatcher (VObj o) = Returned tt ->
    (forall l, recognized l ->
       read (annotate (VObj o)) l
       = match read (VObj o) l with
         | VStr s =>
             if s =? "" then VUndefined
             else VObj [("type", VStr "glob"); ("value", VStr s)]
         | VRegExp s => VObj [("type", VStr "regex"); ("value", VStr s)]
         | _ => VUndefined
         end)
    /\ (forall l, recognized l ->
          JS.truthy (read (VObj o) l) = true ->
          isStringMatcher (read (VObj o) l) = true)
    /\ (forall l, recognized l ->
          JS.truthy (read (VObj o) l) = false ->
          held (annotate (VObj o)) l = None)
    /\ (forall g, In g noAnnotationRequiredFields ->
          JS.own (annotate (VObj o)) g = JS.own (VObj o) g)
    /\ (forall g, JS.hasOwn (annotate (VObj o)) g = true ->
          tableName g \/ In g noAnnotationRequiredFields).
Proof.
  intros o Ho Hvalid.
  assert (Hstring : forall l, recognized l ->
            JS.truthy (read (VObj o) l) = true ->
            isStringMatcher (read (VObj o) l) = true).
  { intros l Hl Ht.
    destruct (in_dec place_eq_dec l (places (VObj o))) as [Hin | Hnin].
    - now apply valid_place.
    - rewrite (unvisited_place o l Ho Hl Hnin) in Ht. discriminate. }
  split; [| split; [exact Hstring | split; [| split]]].
  - destruct (annotate_plain o Ho) as (a & -> & _ & Hread & _).
    intros l Hl. rewrite (Hread l Hl).
    destruct (JS.truthy (read (VObj o) l)) eqn:Ht.
    + specialize (Hstring l Hl Ht). unfold isStringMatcher, isRegExp in Hstring.
      destruct (read (VObj o) l) as [| | | | s | s | | |];
        simpl in Hstring, Ht; rewrite ?andb_false_r in Hstring;
        try discriminate.
      * destruct (s =? "") eqn:Hs; [discriminate |].
        unfold annotation, isRegExp. simpl. now rewrite andb_false_r.
      * reflexivity.
    + destruct (read (VObj o) l) as [| | | | s | s | | |];
        try reflexivity; try discriminate.
      simpl in Ht. now destruct (s =? "").
  - intros l Hl Hfalsy. now apply annotate_held.
  - destruct (annotate_plain o Ho) as (a & -> & _ & _ & Hcopy).
    exact Hcopy.
  - intros g Hown.
    destruct (in_dec string_dec g Collaborators.STRING_MATCHER_FIELDS)
      as [Hf | Hf]; [left; now left |].
    destruct (in_dec string_dec g Collaborators.DICT_STRING_MATCHER_FIELDS)
      as [Hd | Hd]; [left; now right |].
    destruct (in_dec string_dec g noAnnotationRequiredFields)
      as [Hc | Hc]; [now right |].
    exfalso. unfold JS.hasOwn in Hown.
    rewrite (annotate_other o g Ho) in Hown;
      [discriminate | intros [H | H]; contradiction | assumption].
Qed.

Lemma annotated_matcher_witness :
  read (annotate (VObj usersMatcher)) (Top "url")
  = VObj [("type", VStr "regex"); ("value", VStr "/\/users/")]
  /\ read (annotate (VObj usersMatcher)) (Nested "headers" "accept")
     = VObj [("type", VStr "glob"); ("value", VStr "application/json")]
  /\ JS.own (annotate (VObj usersMatcher)) "port"
     = Some (VArr [VNum 80; VNum 443]).
Proof.
  destruct (annotated_matcher usersMatcher usersMatcher_plain eq_refl)
    as (Hread & _ & _ & Hcopy & _).
  split; [| split].
  - apply (Hread (Top "url")). simpl. tauto.
  - apply (Hread (Nested "headers" "accept")). simpl. tauto.
  - apply (Hcopy "port"). simpl. tauto.
Defined.

(** ** The shorthand forms are valid matchers *)

(** When the first argument is a string or a pattern, the matcher
    [route2] builds from the arguments passes validation, whatever the
    other arguments: such a call never ends with
    [invalid_route_matcher].  (The empty string is a URL like any
    other.) *)
Theorem shorthand_accepted :
  forall u h arg2,
    isStringMatcher u = true ->
    validateMatcher (fst (getMatcherOptions u h arg2)) = Returned tt
    /\ forall env st err m,
         fst (register env u h arg2 st) <> Err (invalid_route_matcher err m).
Proof.
  intros u h arg2 Hu.
  assert (Hvalid :
    validateMatcher (fst (getMatcherOptions u h arg2)) = Returned tt).
  { unfold getMatcherOptions. rewrite Hu.
    destruct (Lodash.isString u && isStringMatcher h && JS.truthy arg2)
      eqn:Hthree.
    - apply andb_true_iff in Hthree. destruct Hthree as [Hthree _].
      apply andb_true_iff in Hthree. destruct Hthree as [Hs Hh].
      unfold isStringMatcher, isRegExp in Hh.
      destruct u as [| | | | [| c0 s0] | | | |]; try discriminate;
        destruct h as [| | | | [| c s'] | | | |];
        simpl in Hh; rewrite ?andb_false_r in Hh;
        try discriminate; reflexivity.
    - unfold isStringMatcher, isRegExp in Hu.
      destruct u as [| | | | [| c s'] | | | |];
        simpl in Hu; rewrite ?andb_false_r in Hu;
        try discriminate; reflexivity. }
  split; [exact Hvalid |].
  intros env st err m Hcall.
  pose proof (route2_ending
                Collaborators.STRING_MATCHER_FIELDS
                Collaborators.DICT_STRING_MATCHER_FIELDS
                Collaborators.validateStaticResponse
                Collaborators.getBackendStaticResponse
                env u h arg2 st) as E.
  fold register in E. rewrite Hcall in E.
  inversion E as [Hg Hr Hs | err' Hg Hv Hr Hs | e Hg Hv Hh Hr Hs
                 | h' sr st' Hg Hv Hh Ha Hr Hs].
  - fold validateMatcher in Hv. congruence.
  - subst e. apply resolveHandler_error in Hh.
    destruct Hh as [(err' & sr & Hh) | Hh]; discriminate.
Qed.

Lemma shorthand_accepted_witness :
  validateMatcher (fst (getMatcherOptions (VStr "") VUndefined VUndefined))
  = Returned tt
  /\ validateMatcher
       (fst (getMatcherOptions (VStr "GET") (VRegExp "/\/users/")
                               (VFun "(req) => {}")))
     = Returned tt.
Proof.
  split.
  - apply (shorthand_accepted (VStr "") VUndefined VUndefined). reflexivity.
  - apply (shorthand_accepted (VStr "GET") (VRegExp "/\/users/")
                              (VFun "(req) => {}")).
    reflexivity.
Defined.

(** ** Dictionaries that are not mappings *)

(** A [headers] or [query] that has no keys for lodash (a number, a
    boolean, a function, [null], an empty string, list or mapping) is
    accepted by the validator, and the annotated matcher sent to the
    backend is empty. *)
Theorem keyless_dictionary_ignored :
  forall (d : string) (v : value),
    In d Collaborators.DICT_STRING_MATCHER_FIELDS ->
    Lodash.keys v = [] ->
    validateMatcher (VObj [(d, v)]) = Returned tt
    /\ annotate (VObj [(d, v)]) = VObj [].
Proof.
  intros d v Hd Hkeys.
  assert (Hfields :
    getAllStringMatcherFields Collaborators.STRING_MATCHER_FIELDS
      Collaborators.DICT_STRING_MATCHER_FIELDS (VObj [(d, v)])
    = ["method"; "url"]).
  { unfold getAllStringMatcherFields.
    simpl in Hd. destruct Hd as [<- | [<- | []]]; cbn -[Lodash.keys];
      rewrite Hkeys; destruct (JS.truthy v); reflexivity. }
  unfold validateMatcher, annotate, validateRouteMatcherOptions,
    annotateMatcherOptionsTypes.
  rewrite Hfields.
  simpl in Hd. destruct Hd as [<- | [<- | []]]; split; reflexivity.
Qed.

Lemma keyless_dictionary_ignored_witness :
  validateMatcher (VObj [("headers", VNum 5)]) = Returned tt
  /\ annotate (VObj [("headers", VNum 5)]) = VObj [].
Proof.
  apply (keyless_dictionary_ignored "headers" (VNum 5));
    [simpl; tauto | reflexivity].
Defined.

(** ** Entries whose key has a dot *)

Lemma walk_undefined (path : list string) :
  path <> [] -> Lodash.walk VUndefined path = VUndefined.
Proof. destruct path; [congruence | reflexivity]. Qed.

(** The path of an entry whose key is [k1.k2], in a dictionary without
    a key [k1]: [_.has] does not find it and [_.get] reads nothing. *)
Lemma dotted_entry (d : string) (e : obj) (k1 k2 : string) :
  In d Collaborators.DICT_STRING_MATCHER_FIELDS ->
  bracketfree (k1 ++ "." ++ k2) = true ->
  dotfree k1 = true ->
  JS.lookup k1 e = None ->
  JS.inherited (VObj e) k1 = None ->
  Lodash.has (VObj [(d, VObj e)]) (d ++ "." ++ k1 ++ "." ++ k2) = false
  /\ Lodash.get (VObj [(d, VObj e)]) (d ++ "." ++ k1 ++ "." ++ k2)
     = VUndefined.
Proof.
  intros Hd Hb Hk1 Hnone Hinherited.
  assert (Hdd : dotfree d = true /\ bracketfree d = true)
    by (destruct Hd as [<- | [<- | []]]; split; reflexivity).
  destruct Hdd as [Hdd Hdb].
  assert (Hcast :
    Lodash.castPath (d ++ "." ++ k1 ++ "." ++ k2) (VObj [(d, VObj e)])
    = d :: k1 :: split_dot k2).
  { rewrite castPath_split_dot.
    - now rewrite !split_dot_app.
    - now apply bracketfree_app_dot.
    - right. unfold JS.hasOwn, JS.own.
      rewrite lookup_none_dotted; [reflexivity | | apply dotfree_app_dot].
      repeat constructor. exact Hdd. }
  destruct (split_dot_segments k2) as [_ Hne].
  assert (Hown_d : JS.hasOwn (VObj [(d, VObj e)]) d = true)
    by (unfold JS.hasOwn, JS.own; simpl; now rewrite String.eqb_refl).
  assert (Hprop_d : JS.member (VObj [(d, VObj e)]) d = VObj e)
    by (apply member_lookup; simpl; now rewrite String.eqb_refl).
  assert (Hown_k : JS.hasOwn (VObj e) k1 = false)
    by (unfold JS.hasOwn, JS.own; now rewrite Hnone).
  assert (Hprop_k : JS.member (VObj e) k1 = VUndefined)
    by (now apply member_absent).
  unfold Lodash.has, Lodash.get, Lodash.baseGet. rewrite Hcast.
  destruct (split_dot k2) as [| h t] eqn:Hsplit; [congruence |].
  cbn [Lodash.hasPath Lodash.walk].
  rewrite Hown_d, Hprop_d, Hown_k, Hprop_k. split; reflexivity.
Qed.

Lemma fold_left_unchanged {A B : Type} (f : A -> B -> A) (l : list B) (a : A) :
  (forall x, In x l -> forall r, f r x = r) -> fold_left f l a = a.
Proof.
  revert a. induction l as [| b l IH]; intros a H; simpl; [reflexivity |].
  rewrite (H b (or_introl eq_refl)). apply IH. intros x Hx. apply H. now right.
Qed.

(** The validator does not look at an entry of [headers] or [query]
    that it cannot reach: when every key of the dictionary has a dot,
    has no bracket and starts, up to its first dot, with a name that is
    not itself a key of the dictionary, the matcher is accepted whatever
    the entries hold, and the annotated matcher sent to the backend is
    empty. *)
Theorem dotted_entries_unchecked :
  forall (d : string) (e : obj),
    In d Collaborators.DICT_STRING_MATCHER_FIELDS ->
    Forall (fun kv => dottedKey e (fst kv)) e ->
    validateMatcher (VObj [(d, VObj e)]) = Returned tt
    /\ annotate (VObj [(d, VObj e)]) = VObj [].
Proof.
  intros d e Hd He.
  assert (Hfields :
    getAllStringMatcherFields Collaborators.STRING_MATCHER_FIELDS
      Collaborators.DICT_STRING_MATCHER_FIELDS (VObj [(d, VObj e)])
    = "method" :: "url" :: map (fun k => d ++ "." ++ k) (map fst e)).
  { unfold getAllStringMatcherFields.
    simpl in Hd. destruct Hd as [<- | [<- | []]]; cbn -[append];
      now rewrite app_nil_r. }
  assert (Hentry : forall path,
    In path (map (fun k => d ++ "." ++ k) (map fst e)) ->
    Lodash.has (VObj [(d, VObj e)]) path = false
    /\ Lodash.get (VObj [(d, VObj e)]) path = VUndefined).
  { intros path Hpath. apply in_map_iff in Hpath.
    destruct Hpath as (k & <- & Hk). apply in_map_iff in Hk.
    destruct Hk as (kv & <- & Hkv). rewrite Forall_forall in He.
    destruct (He kv Hkv) as (Hb & k1 & k2 & Hkey & Hk1 & Hnone & Hproto).
    rewrite Hkey in *. now apply dotted_entry. }
  unfold validateMatcher, annotate, validateRouteMatcherOptions,
    annotateMatcherOptionsTypes.
  rewrite Hfields. split.
  - assert (Hfind :
      find (invalidStringMatcher (VObj [(d, VObj e)]))
           ("method" :: "url" :: map (fun k => d ++ "." ++ k) (map fst e))
      = None).
    { apply find_none_all. intros path [<- | [<- | Hpath]].
      - simpl in Hd. destruct Hd as [<- | [<- | []]]; reflexivity.
      - simpl in Hd. destruct Hd as [<- | [<- | []]]; reflexivity.
      - unfold invalidStringMatcher.
        now rewrite (proj1 (Hentry path Hpath)). }
    rewrite Hfind.
    simpl in Hd. destruct Hd as [<- | [<- | []]]; reflexivity.
  - rewrite fold_left_unchanged.
    + simpl in Hd. destruct Hd as [<- | [<- | []]]; reflexivity.
    + intros path [<- | [<- | Hpath]] r.
      * simpl in Hd. destruct Hd as [<- | [<- | []]]; reflexivity.
      * simpl in Hd. destruct Hd as [<- | [<- | []]]; reflexivity.
      * unfold annotateField. now rewrite (proj2 (Hentry path Hpath)).
Qed.

Lemma dotted_entries_unchecked_witness :
  validateMatcher
    (VObj [("headers", VObj [("a.b", VNum 5); ("x.y.z", VNull)])])
  = Returned tt
  /\ annotate
       (VObj [("headers", VObj [("a.b", VNum 5); ("x.y.z", VNull)])])
     = VObj [].
Proof.
  apply (dotted_entries_unchecked "headers"
           [("a.b", VNum 5); ("x.y.z", VNull)]); [simpl; tauto |].
  repeat constructor.
  - exists "a", "b". repeat split.
  - exists "x", "y.z". repeat split.
Defined.

(** ** The empty string as a matcher *)




(** ** The cache script: paths *)

Lemma append_assoc (a b c : string) : (a ++ b) ++ c = a ++ b ++ c.
Proof. induction a as [| x a IH]; simpl; [reflexivity | now rewrite IH]. Qed.

Lemma prefix_app (a b : string) : String.prefix a (a ++ b) = true.
Proof.
  induction a as [| x a IH]; simpl.
  - now destruct b.
  - destruct (ascii_dec x x); [assumption | contradiction].
Qed.

Lemma slice_app (a b : string) : JSString.slice (String.length a) (a ++ b) = b.
Proof. induction a as [| x a IH]; simpl; [now destruct b | assumption]. Qed.

Lemma search_cons (pattern : string) (c : ascii) (r : string) :
  JSString.search pattern (String c r)
  = if String.prefix pattern (String c r)
    then Some ("", JSString.slice (String.length pattern) (String c r))
    else match JSString.search pattern r with
         | Some (before, after) => Some (String c before, after)
         | None => None
         end.
Proof. reflexivity. Qed.

Lemma search_prefix (a b : string) : JSString.search a (a ++ b) = Some ("", b).
Proof.
  destruct (a ++ b) as [| c r] eqn:Hab.
  - destruct a; [| discriminate]. simpl in Hab. now subst b.
  - rewrite search_cons, <- Hab, prefix_app, slice_app. reflexivity.
Qed.

Lemma absent_prefix (q x : string) :
  absent q x -> String.prefix q x = false.
Proof.
  unfold absent. destruct x as [| c r].
  - now destruct q.
  - rewrite search_cons. now destruct (String.prefix q (String c r)).
Qed.

Lemma absent_tail (q : string) (c : ascii) (r : string) :
  absent q (String c r) -> absent q r.
Proof.
  unfold absent. rewrite search_cons.
  destruct (String.prefix q (String c r)); [discriminate |].
  destruct (JSString.search q r) as [[b a] |]; [discriminate | reflexivity].
Qed.

(** A start of [x ++ y] that is [q] lies in [x], or an end of [q] is a
    start of [y]. *)
Lemma prefix_app_cases (q x y : string) :
  String.prefix q (x ++ y) = true ->
  String.prefix q x = true \/ overlaps q y = true.
Proof.
  revert x. induction q as [| a q IH]; intros x H.
  - left. now destruct x.
  - destruct x as [| b x].
    + right. simpl in H. simpl overlaps. now rewrite H.
    + simpl in H. simpl String.prefix.
      destruct (ascii_dec a b); [| discriminate].
      destruct (IH x H) as [Hx | Hy]; [now left | right].
      simpl. rewrite Hy. apply orb_true_r.
Qed.

(** The first occurrence of [c0 q] in [x ++ c0 q ++ after], for an [x]
    that does not contain [q], is the one after [x]. *)
Lemma search_after (c0 : ascii) (q x after : string) :
  absent q x ->
  overlaps q (String c0 q ++ after) = false ->
  JSString.search (String c0 q) (x ++ String c0 q ++ after)
  = Some (x, after).
Proof.
  intros Hx Hover. induction x as [| c x IH].
  - apply (search_prefix (String c0 q) after).
  - change (String c x ++ String c0 q ++ after)
      with (String c (x ++ String c0 q ++ after)).
    rewrite search_cons.
    assert (Hhead : String.prefix (String c0 q)
                      (String c (x ++ String c0 q ++ after)) = false).
    { change (String.prefix (String c0 q)
                (String c (x ++ String c0 q ++ after)))
        with (match ascii_dec c0 c with
              | left _ => String.prefix q (x ++ String c0 q ++ after)
              | right _ => false
              end).
      destruct (ascii_dec c0 c); [| reflexivity].
      destruct (String.prefix q (x ++ String c0 q ++ after)) eqn:Hp;
        [| reflexivity].
      apply prefix_app_cases in Hp. destruct Hp as [Hp | Hp].
      - rewrite (absent_prefix q x (absent_tail q c x Hx)) in Hp.
        discriminate.
      - congruence. }
    rewrite Hhead, (IH (absent_tail q c x Hx)). reflexivity.
Qed.

Lemma getSubstitution_plain (captures : list string)
  (matched before after template : string) :
  dollarfree template = true ->
  JSString.getSubstitution captures matched before after template = template.
Proof.
  induction template as [| c r IH]; simpl; [reflexivity |].
  intros H. apply andb_true_iff in H. destruct H as [Hc Hr].
  rewrite Hc. now rewrite IH.
Qed.

Lemma replace_prefix (a b template : string) :
  dollarfree template = true ->
  JSString.replace (a ++ b) a template = template ++ b.
Proof.
  intros H. unfold JSString.replace.
  rewrite search_prefix, getSubstitution_plain by assumption. reflexivity.
Qed.

Lemma shortest_search (literal s g after : string) :
  JSString.shortest literal s = Some (g, after) ->
  JSString.search literal s = Some (g, after).
Proof.
  revert g. induction s as [| c r IH]; intros g; simpl.
  - now destruct literal.
  - change (match literal with
            | EmptyString => true
            | String a s1' =>
                match ascii_dec a c with
                | left _ => String.prefix s1' r
                | right _ => false
                end
            end) with (String.prefix literal (String c r)).
    destruct (String.prefix literal (String c r)); [auto |].
    destruct (Lodash.is_line_terminator c); [discriminate |].
    destruct (JSString.shortest literal r) as [[g' a'] |]; [| discriminate].
    intros H. injection H as <- <-. now rewrite (IH g' eq_refl).
Qed.

Lemma shortest_none_prefix (literal s : string) :
  JSString.shortest literal s = None -> String.prefix literal s = false.
Proof.
  destruct s as [| c r]; simpl.
  - now destruct literal.
  - change (match literal with
            | EmptyString => true
            | String a s1' =>
                match ascii_dec a c with
                | left _ => String.prefix s1' r
                | right _ => false
                end
            end) with (String.prefix literal (String c r)).
    now destruct (String.prefix literal (String c r)).
Qed.

(** The leftmost match of [/(.*?)literal/] ends with the first
    occurrence of [literal], and there is one whenever [literal]
    occurs. *)
Lemma exec_search (literal s : string) :
  match JSString.exec literal s with
  | Some (before, g, after) =>
      JSString.search literal s = Some (before ++ g, after)
  | None => JSString.search literal s = None
  end.
Proof.
  induction s as [| c r IH].
  - destruct literal; reflexivity.
  - cbn [JSString.exec].
    destruct (JSString.shortest literal (String c r)) as [[g a] |] eqn:Hs.
    + now apply shortest_search.
    + rewrite search_cons, (shortest_none_prefix _ _ Hs).
      destruct (JSString.exec literal r) as [[[b g] a] |];
        rewrite IH; reflexivity.
Qed.

Lemma first_slash (s : string) :
  JSString.replaceShortest s "/node_modules" "$1_node_modules"
  = match JSString.search "/node_modules" s with
    | Some (before, after) => before ++ "_node_modules" ++ after
    | None => s
    end.
Proof.
  unfold JSString.replaceShortest.
  pose proof (exec_search "/node_modules" s) as H.
  destruct (JSString.exec "/node_modules" s) as [[[b g] a] |];
    rewrite H; [| reflexivity].
  change (JSString.getSubstitution [g] (g ++ "/node_modules") b a
            "$1_node_modules")
    with (g ++ "_node_modules").
  now rewrite !append_assoc.
Qed.

Lemma first_underscore (s : string) :
  JSString.replaceShortest s "_node_modules" "$1/node_modules"
  = match JSString.search "_node_modules" s with
    | Some (before, after) => before ++ "/node_modules" ++ after
    | None => s
    end.
Proof.
  unfold JSString.replaceShortest.
  pose proof (exec_search "_node_modules" s) as H.
  destruct (JSString.exec "_node_modules" s) as [[[b g] a] |];
    rewrite H; [| reflexivity].
  change (JSString.getSubstitution [g] (g ++ "_node_modules") b a
            "$1/node_modules")
    with (g ++ "/node_modules").
  now rewrite !append_assoc.
Qed.

(** The two rewritings of the script with a regular expression replace
    the first occurrence of [/node_modules] by [_node_modules], and of
    [_node_modules] by [/node_modules], wherever it is and whatever
    line breaks the path holds; a path without an occurrence is left as
    it is. *)
Theorem rewrites_first_occurrence :
  forall s : string,
    JSString.replaceShortest s "/node_modules" "$1_node_modules"
    = match JSString.search "/node_modules" s with
      | Some (before, after) => before ++ "_node_modules" ++ after
      | None => s
      end
    /\ JSString.replaceShortest s "_node_modules" "$1/node_modules"
       = match JSString.search "_node_modules" s with
         | Some (before, after) => before ++ "/node_modules" ++ after
         | None => s
         end.
Proof. intros s. split; [apply first_slash | apply first_underscore]. Qed.

Lemma dollarfree_app (a b : string) :
  dollarfree (a ++ b) = dollarfree a && dollarfree b.
Proof.
  unfold dollarfree. induction a as [| c a IH]; simpl; [reflexivity |].
  now rewrite IH, andb_assoc.
Qed.

Lemma moves_app (a b : list request) :
  moves (a ++ b) = (moves a ++ moves b)%list.
Proof. apply flat_map_app. Qed.

Lemma moves_map (dest : string -> string) (paths : list string) :
  moves (map (fun src => Move src (dest src)) paths)
  = map (fun src => (src, dest src)) paths.
Proof.
  induction paths as [| src paths IH]; simpl; [reflexivity |].
  f_equal. exact IH.
Qed.

Section CachePaths.

Variable BASE_DIR CACHE_DIR : string.
Variable workspacePaths : list string.

Hypothesis cache_in_base : CACHE_DIR = BASE_DIR ++ "/globbed_node_modules".
Hypothesis base_plain : dollarfree BASE_DIR = true.

Lemma cachedPath_node_modules (rest : string) :
  absent "node_modules" (BASE_DIR ++ rest) ->
  cachedPath BASE_DIR CACHE_DIR (BASE_DIR ++ rest ++ "/node_modules")
  = CACHE_DIR ++ rest ++ "_node_modules".
Proof.
  intros Hrest. unfold cachedPath. rewrite first_slash.
  rewrite <- append_assoc.
  replace "/node_modules" with ("/node_modules" ++ "") at 2 by reflexivity.
  rewrite (search_after "/" "node_modules" (BASE_DIR ++ rest) ""
             Hrest eq_refl).
  rewrite append_assoc. apply replace_prefix.
  rewrite cache_in_base, dollarfree_app, base_plain. reflexivity.
Qed.

Lemma unpackedPath_node_modules (rest : string) :
  absent "node_modules" (BASE_DIR ++ rest) ->
  unpackedPath BASE_DIR CACHE_DIR (CACHE_DIR ++ rest ++ "_node_modules")
  = BASE_DIR ++ rest ++ "/node_modules".
Proof.
  intros Hrest. unfold unpackedPath.
  rewrite (replace_prefix CACHE_DIR _ BASE_DIR base_plain), first_underscore.
  rewrite <- append_assoc.
  replace "_node_modules" with ("_node_modules" ++ "") at 2 by reflexivity.
  rewrite (search_after "_" "node_modules" (BASE_DIR ++ rest) ""
             Hrest eq_refl).
  now rewrite append_assoc.
Qed.

(** Unpacking undoes preparing.  When the cache directory is
    [globbed_node_modules] under the base directory, the base directory
    has no [$] in its name and [node_modules] occurs nowhere else in
    the paths, [prepareCircleCache] moves every
    [BASE_DIR/rest/node_modules] to [CACHE_DIR/rest_node_modules], and
    [unpackCircleCache], run on the directories so made, moves every
    one of them back to where it came from. *)
Theorem unpack_undoes_prepare (rests : list string) :
  Forall (fun rest => absent "node_modules" (BASE_DIR ++ rest)) rests ->
  moves (prepareCircleCache BASE_DIR CACHE_DIR workspacePaths
           (map (fun rest => BASE_DIR ++ rest ++ "/node_modules") rests))
  = map (fun rest => (BASE_DIR ++ rest ++ "/node_modules",
                      CACHE_DIR ++ rest ++ "_node_modules")) rests
  /\ moves (unpackCircleCache BASE_DIR CACHE_DIR workspacePaths
              (map (fun rest => CACHE_DIR ++ rest ++ "_node_modules") rests))
     = map (fun rest => (CACHE_DIR ++ rest ++ "_node_modules",
                         BASE_DIR ++ rest ++ "/node_modules")) rests.
Proof.
  intros Hrests. unfold prepareCircleCache, unpackCircleCache.
  rewrite !moves_app, !moves_map, !map_map. simpl moves.
  rewrite !app_nil_r. split.
  - apply map_ext_in. intros rest Hin. rewrite Forall_forall in Hrests.
    now rewrite cachedPath_node_modules by auto.
  - apply map_ext_in. intros rest Hin. rewrite Forall_forall in Hrests.
    now rewrite unpackedPath_node_modules by auto.
Qed.

End CachePaths.

Lemma unpack_undoes_prepare_witness :
  moves (prepareCircleCache "/repo" "/repo/globbed_node_modules"
           ["packages/*"; "npm/*"; "cli"]
           ["/repo/packages/driver/node_modules";
            "/repo/npm/react/node_modules"])
  = [("/repo/packages/driver/node_modules",
      "/repo/globbed_node_modules/packages/driver_node_modules");
     ("/repo/npm/react/node_modules",
      "/repo/globbed_node_modules/npm/react_node_modules")]
  /\ moves (unpackCircleCache "/repo" "/repo/globbed_node_modules"
              ["packages/*"; "npm/*"; "cli"]
              ["/repo/globbed_node_modules/packages/driver_node_modules";
               "/repo/globbed_node_modules/npm/react_node_modules"])
     = [("/repo/globbed_node_modules/packages/driver_node_modules",
         "/repo/packages/driver/node_modules");
        ("/repo/globbed_node_modules/npm/react_node_modules",
         "/repo/npm/react/node_modules")].
Proof.
  apply (unpack_undoes_prepare "/repo" "/repo/globbed_node_modules"
           ["packages/*"; "npm/*"; "cli"] eq_refl eq_refl
           ["/packages/driver"; "/npm/react"]).
  repeat constructor.
Defined.

(** ** The cache script: the key *)

Lemma ascii_compare_lt_trans (a b c : ascii) :
  Ascii.compare a b = Lt -> Ascii.compare b c = Lt -> Ascii.compare a c = Lt.
Proof.
  unfold Ascii.compare. rewrite !N.compare_lt_iff. lia.
Qed.

Lemma compare_lt_trans (a b c : string) :
  String.compare a b = Lt -> String.compare b c = Lt ->
  String.compare a c = Lt.
Proof.
  revert b c. induction a as [| x a IH]; intros [| y b] [| z c]; simpl;
    try discriminate; try reflexivity.
  destruct (Ascii.compare x y) eqn:Hxy; try discriminate.
  - apply Ascii.compare_eq_iff in Hxy. subst y.
    destruct (Ascii.compare x z); try discriminate; [apply IH | reflexivity].
  - destruct (Ascii.compare y z) eqn:Hyz; try discriminate.
    + apply Ascii.compare_eq_iff in Hyz. subst z. now rewrite Hxy.
    + now rewrite (ascii_compare_lt_trans x y z Hxy Hyz).
Qed.

Lemma leb_trans (a b c : string) :
  String.leb a b = true -> String.leb b c = true -> String.leb a c = true.
Proof.
  unfold String.leb.
  destruct (String.compare a b) eqn:Hab; try discriminate;
    destruct (String.compare b c) eqn:Hbc; try discriminate; intros _ _.
  - apply String.compare_eq_iff in Hab, Hbc. subst.
    destruct (String.leb_total c c) as [H | H]; exact H.
  - apply String.compare_eq_iff in Hab. subst. now rewrite Hbc.
  - apply String.compare_eq_iff in Hbc. subst. now rewrite Hab.
  - now rewrite (compare_lt_trans a b c Hab Hbc).
Qed.

Lemma insert_insert (x y : string) (l : list string) :
  JSString.insert x (JSString.insert y l)
  = JSString.insert y (JSString.insert x l).
Proof.
  induction l as [| z l IH]; simpl.
  - destruct (String.leb x y) eqn:Hxy, (String.leb y x) eqn:Hyx;
      try reflexivity.
    + now rewrite (String.leb_antisym x y Hxy Hyx).
    + destruct (String.leb_total x y); congruence.
  - destruct (String.leb y z) eqn:Hyz, (String.leb x z) eqn:Hxz; simpl;
      rewrite ?Hyz, ?Hxz.
    + destruct (String.leb x y) eqn:Hxy, (String.leb y x) eqn:Hyx;
        try reflexivity.
      * now rewrite (String.leb_antisym x y Hxy Hyx).
      * destruct (String.leb_total x y); congruence.
    + destruct (String.leb x y) eqn:Hxy.
      * rewrite (leb_trans x y z Hxy Hyz) in Hxz. discriminate.
      * reflexivity.
    + destruct (String.leb y x) eqn:Hyx.
      * rewrite (leb_trans y x z Hyx Hxz) in Hyz. discriminate.
      * reflexivity.
    + now rewrite IH.
Qed.

Lemma sort_permutation (l l' : list string) :
  Permutation l l' -> JSString.sort l = JSString.sort l'.
Proof.
  induction 1 as [| x l l' _ IH | x y l | l l' l'' _ IH1 _ IH2]; simpl.
  - reflexivity.
  - now rewrite IH.
  - apply insert_insert.
  - congruence.
Qed.

(** The key does not depend on the order in which [globby] lists the
    patch files and the [package.json] files: the same files in another
    order give the same key, or the same failure. *)
Theorem cacheKey_order_independent :
  forall BASE_DIR path_join require stringify hashFile hashString
         (patchFiles patchFiles' packageJsons packageJsons' : list string),
    Permutation patchFiles patchFiles' ->
    Permutation packageJsons packageJsons' ->
    cacheKey BASE_DIR path_join require stringify hashFile hashString
             patchFiles packageJsons
    = cacheKey BASE_DIR path_join require stringify hashFile hashString
               patchFiles' packageJsons'.
Proof.
  intros BASE_DIR path_join require stringify hashFile hashString
         patchFiles patchFiles' packageJsons packageJsons' Hpatch Hpkg.
  unfold cacheKey.
  rewrite (sort_permutation packageJsons packageJsons' Hpkg).
  rewrite (sort_permutation ([p BASE_DIR path_join "yarn.lock"] ++ patchFiles)
             ([p BASE_DIR path_join "yarn.lock"] ++ patchFiles'))
    by now apply Permutation_app_head.
  reflexivity.
Qed.

Lemma cacheKey_order_independent_witness :
  cacheKey "/repo" (fun a b => a ++ "/" ++ b) (fun _ => Some (VObj []))
           (fun _ => "{}") (fun f => Some ("#" ++ f)) (fun s => s)
           ["/repo/patches/b.patch"; "/repo/patches/a.patch"]
           ["/repo/package.json"; "/repo/cli/package.json"]
  = cacheKey "/repo" (fun a b => a ++ "/" ++ b) (fun _ => Some (VObj []))
             (fun _ => "{}") (fun f => Some ("#" ++ f)) (fun s => s)
             ["/repo/patches/a.patch"; "/repo/patches/b.patch"]
             ["/repo/cli/package.json"; "/repo/package.json"].
Proof.
  apply cacheKey_order_independent; apply perm_swap.
Defined.

Lemma in_insert (x y : string) (l : list string) :
  In x (JSString.insert y l) <-> x = y \/ In x l.
Proof.
  induction l as [| z l IH]; simpl.
  - intuition.
  - destruct (String.leb y z); simpl; rewrite ?IH; intuition.
Qed.

Lemma in_sort (x : string) (l : list string) :
  In x (JSString.sort l) <-> In x l.
Proof.
  induction l as [| y l IH]; simpl; [tauto |].
  rewrite in_insert, IH. intuition.
Qed.

Lemma all_none {A : Type} (l : list (option A)) :
  all l = None <-> In None l.
Proof.
  induction l as [| [a |] l IH]; simpl.
  - split; [discriminate | contradiction].
  - destruct (all l).
    + split; [discriminate |]. intros [H | H]; [discriminate |].
      now apply IH in H.
    + split; [intros _; right; now apply IH | reflexivity].
  - split; [now left | reflexivity].
Qed.

Lemma all_some {A : Type} (l : list (option A)) (r : list A) :
  all l = Some r -> l = map Some r.
Proof.
  revert r. induction l as [| [a |] l IH]; intros r; simpl.
  - intros H. injection H as <-. reflexivity.
  - destruct (all l) as [r' |]; [| discriminate].
    intros H. injection H as <-. simpl. now rewrite (IH r' eq_refl).
  - discriminate.
Qed.

(** The key is printed unless a file cannot be used: [cacheKey] fails
    exactly when [require] throws on one of the [package.json] files or
    returns [null] or [undefined] for it, or when [yarn.lock] or one of
    the patch files cannot be read. *)
Theorem cacheKey_fails_iff :
  forall BASE_DIR path_join require stringify hashFile hashString
         (patchFiles packageJsons : list string),
    cacheKey BASE_DIR path_join require stringify hashFile hashString
             patchFiles packageJsons = None
    <-> (exists f, In f packageJsons
                   /\ (require f = None \/ require f = Some VNull
                       \/ require f = Some VUndefined))
        \/ (exists f, In f (p BASE_DIR path_join "yarn.lock" :: patchFiles)
                      /\ hashFile f = None).
Proof.
  intros BASE_DIR path_join require stringify hashFile hashString
         patchFiles packageJsons.
  unfold cacheKey.
  destruct (all (map require (JSString.sort packageJsons)))
    as [pkgs |] eqn:Hrequire.
  2: { split; [intros _ | reflexivity]. left.
       apply all_none, in_map_iff in Hrequire.
       destruct Hrequire as (f & Hf & Hin). exists f.
       split; [now apply in_sort | now left]. }
  apply all_some in Hrequire.
  destruct (all (map (hashPackage stringify hashString) pkgs))
    as [hashes |] eqn:Hhash.
  2: { split; [intros _ | reflexivity]. left.
       apply all_none, in_map_iff in Hhash.
       destruct Hhash as (pkg & Hpkg & Hin).
       assert (Hsome : In (Some pkg) (map require (JSString.sort packageJsons)))
         by (rewrite Hrequire; now apply in_map).
       apply in_map_iff in Hsome. destruct Hsome as (f & Hf & Hfin).
       exists f. split; [now apply in_sort |]. right. rewrite Hf.
       destruct pkg; try discriminate; auto. }
  assert (Hpackages :
    ~ exists f, In f packageJsons
                /\ (require f = None \/ require f = Some VNull
                    \/ require f = Some VUndefined)).
  { intros (f & Hin & Hbad).
    assert (Hf : In (require f) (map Some pkgs)).
    { rewrite <- Hrequire. apply in_map. now apply in_sort. }
    apply in_map_iff in Hf. destruct Hf as (pkg & Hpkg & Hpin).
    assert (Hgood : In (hashPackage stringify hashString pkg)
                       (map (hashPackage stringify hashString) pkgs))
      by now apply in_map.
    rewrite (all_some _ _ Hhash) in Hgood.
    apply in_map_iff in Hgood. destruct Hgood as (h & Hh & _).
    destruct Hbad as [Hbad | [Hbad | Hbad]]; rewrite Hbad in Hpkg;
      try discriminate; injection Hpkg as ->; discriminate. }
  destruct (all (map hashFile
                   (JSString.sort
                      ([p BASE_DIR path_join "yarn.lock"] ++ patchFiles))))
    as [hashed |] eqn:Hfiles.
  - split; [discriminate |]. intros [Hbad | (f & Hin & Hbad)].
    + contradiction.
    + exfalso.
      assert (Hf : In (hashFile f) (map Some hashed)).
      { rewrite <- (all_some _ _ Hfiles). apply in_map. now apply in_sort. }
      rewrite Hbad in Hf. apply in_map_iff in Hf.
      destruct Hf as (h & Hh & _). discriminate.
  - split; [intros _ | reflexivity]. right.
    apply all_none, in_map_iff in Hfiles.
    destruct Hfiles as (f & Hf & Hin). exists f.
    split; [apply (proj1 (in_sort _ _)) in Hin; exact Hin | assumption].
Qed.
